(** * declaration-property-value-no-unknown

    A shallow embedding of
    [lib/rules/declaration-property-value-no-unknown/index.js] and the
    properties of the rule that follow from it.

    Conventions of the embedding.
    - A JavaScript string is a [string]; one character stands for one
      code unit.  Numbers that the rule only adds and passes on
      (offsets, lengths, indices) are integers in [Z].
    - The callback handed to [root.walkDecls] has many [return;]
      statements and two sinks ([result.warn] and [report]).  It is
      written in a small monad [M] that records, in program order, every
      call to a collaborator and every diagnostic emitted, and that
      carries the completion of the function body (fell through, or
      left by [return;]).
    - The collaborators whose code is elsewhere ([isStandardSyntax*],
      [isCustomProperty], [matchesStringOrRegExp], [declarationValueIndex],
      [validateOptions], [ruleMessages], and css-tree's [parse], [fork]
      and [matchProperty]) are variables of the section [Rule]. *)

From Stdlib Require Import String Ascii List ZArith Bool Lia.
Import ListNotations.
Local Open Scope string_scope.
Local Open Scope Z_scope.

Set Implicit Arguments.
Set Warnings "-register-all,-notation-for-abbreviation".

(* ================================================================= *)
(** ** JavaScript values and strings *)

Module Js.

(** The flags and source of a regular expression literal. *)
Record RegExp : Type := mkRegExp { source : string; flags : string }.

(** The values an option can hold. *)
Inductive Value : Type :=
| Undefined
| Null
| Bool (b : bool)
| Str (s : string)
| Regex (r : RegExp)
| Array (items : list Value).

(** ToBoolean: [undefined], [null], [false] and the empty string are
    falsy; objects (regular expressions, arrays, also empty ones) are
    truthy. *)
Definition truthy (v : Value) : bool :=
  match v with
  | Undefined => false
  | Null => false
  | Bool b => b
  | Str s => negb (String.length s =? 0)%nat
  | Regex _ => true
  | Array _ => true
  end.

(** [String.prototype.slice(start, end)]: a negative argument counts
    from the end, both are clamped to the string, and an empty range
    gives the empty string. *)
Definition slice (s : string) (start stop : Z) : string :=
  let len := Z.of_nat (String.length s) in
  let from := if start <? 0 then Z.max (len + start) 0 else Z.min start len in
  let to := if stop <? 0 then Z.max (len + stop) 0 else Z.min stop len in
  if to <=? from then EmptyString
  else substring (Z.to_nat from) (Z.to_nat (to - from)) s.

(** Canonicalize of a regular expression with the [i] flag and
    without [u]: the character is upper-cased, and a character outside
    ASCII is never mapped into ASCII.  The patterns here are ASCII, so
    a character outside ASCII, which can match none of theirs, is left
    as it is. *)
Definition canonicalize (c : ascii) : ascii :=
  let n := nat_of_ascii c in
  if ((97 <=? n) && (n <=? 122))%nat then ascii_of_nat (n - 32) else c.

Fixpoint canonicalize_all (s : string) : string :=
  match s with
  | EmptyString => EmptyString
  | String c s' => String (canonicalize c) (canonicalize_all s')
  end.

(** [/^lit$/i.test(s)] for a pattern [lit] of literal characters.
    Without the [m] flag [^] and [$] match only at the two ends of
    the input, so the whole input has to be [lit] up to Canonicalize.
    The expression has no [g] or [y] flag: [test] keeps no state. *)
Definition test_anchored_literal_i (lit s : string) : bool :=
  String.eqb (canonicalize_all s) (canonicalize_all lit).

End Js.

(** The double quote, for the message templates. *)
Definition dquote : string := String (ascii_of_nat 34) EmptyString.

(* ================================================================= *)
(** ** The data of the rule *)

(** A PostCSS declaration, as far as the rule and its helpers read it:
    [decl.prop], [decl.value], and the raw text between the two. *)
Record Decl : Type := mkDecl {
  prop : string;
  value : string;
  raws_between : string
}.

(** A node of css-tree's value tree: its [type], its [name] (read only
    on [Function] nodes) and the children that [walk] visits. *)
Inductive CssNode : Type :=
| mkCssNode (type : string) (name : string) (children : list CssNode).

Definition node_type (n : CssNode) : string :=
  match n with mkCssNode t _ _ => t end.
Definition node_name (n : CssNode) : string :=
  match n with mkCssNode _ nm _ => nm end.
Definition node_children (n : CssNode) : list CssNode :=
  match n with mkCssNode _ _ cs => cs end.

(** The [error] of css-tree's match result, with the four fields the
    rule destructures.  On an error that is not a [SyntaxMatchError]
    the two numbers are not read. *)
Record MatchError : Type := mkMatchError {
  mismatchLength : Z;
  mismatchOffset : Z;
  name : string;
  rawMessage : string
}.

Record MatchResult : Type := mkMatchResult { error : option MatchError }.

(** The secondary options.  An object is the list of its entries in
    the order of [Object.entries]; a missing field is [None]. *)
Record SecondaryOptions : Type := mkSecondaryOptions {
  opt_ignoreProperties : option (list (string * Js.Value));
  opt_propertiesSyntax : option (list (string * string));
  opt_typesSyntax : option (list (string * string))
}.

(** What reaches the result: [result.warn(text, {node, stylelintType})]
    and [report({message, node, index, endIndex, result, ruleName})]. *)
Inductive Diagnostic : Type :=
| Warn (text : string) (node : Decl) (stylelintType : string)
| Report (message : string) (node : Decl) (index endIndex : Z) (ruleName : string).

(** The sub-range of a diagnostic: only [report] is given one. *)
Definition diag_range (d : Diagnostic) : option (Z * Z) :=
  match d with
  | Warn _ _ _ => None
  | Report _ _ i e _ => Some (i, e)
  end.

Definition diag_node (d : Diagnostic) : Decl :=
  match d with
  | Warn _ n _ => n
  | Report _ n _ _ _ => n
  end.

(** The calls the rule makes, one constructor per call site. *)
Inductive Call : Type :=
| CValidateOptions (primary : Js.Value) (secondaryOptions : option SecondaryOptions)
| CFork (properties types : list (string * string))
| CIsStandardSyntaxDeclaration (decl : Decl)
| CIsStandardSyntaxProperty (p : string)
| CIsStandardSyntaxValue (v : string)
| CIsCustomProperty (p : string)
| CIsPropIgnored (p v : string)
| CParse (v : string)
| CContainsUnsupportedMathFunction (tree : CssNode)
| CMatchProperty (p : string) (tree : CssNode)
| CDeclarationValueIndex (decl : Decl).

Inductive Event : Type :=
| Called (c : Call)
| Emitted (d : Diagnostic).

Definition Trace : Type := list Event.

Fixpoint diagnostics (t : Trace) : list Diagnostic :=
  match t with
  | [] => []
  | Called _ :: t' => diagnostics t'
  | Emitted d :: t' => d :: diagnostics t'
  end.

Fixpoint calls (t : Trace) : list Call :=
  match t with
  | [] => []
  | Called c :: t' => c :: calls t'
  | Emitted _ :: t' => calls t'
  end.

(* ================================================================= *)
(** ** The monad of the callback *)

(** How a function body ends: it falls through with a value, or it is
    left by a [return;]. *)
Inductive Completion (A : Type) : Type :=
| Normal (a : A)
| Return.
Arguments Normal {A} a.
Arguments Return {A}.

Definition M (A : Type) : Type := (Trace * Completion A)%type.

Definition ret {A} (a : A) : M A := ([], Normal a).

Definition bind {A B} (m : M A) (k : A -> M B) : M B :=
  match m with
  | (t, Normal a) => let (t', c) := k a in ((t ++ t')%list, c)
  | (t, Return) => (t, Return)
  end.

Notation "x <- m ;; k" := (bind m (fun x => k))
  (at level 61, m at next level, right associativity).
Notation "m ;; k" := (bind m (fun _ => k))
  (at level 61, right associativity).

(** [return;] *)
Definition return_ {A} : M A := ([], Return).

(** A call to a collaborator: the call is recorded, its result is the
    value. *)
Definition call {A} (c : Call) (result : A) : M A := ([Called c], Normal result).

Definition emit (d : Diagnostic) : M unit := ([Emitted d], Normal tt).

(** [if (c) return;] *)
Definition return_if (c : bool) : M unit := if c then return_ else ret tt.

(** The events of a computation, and of a function called for its
    effects: the caller goes on whichever way the body ended. *)
Definition trace_of {A} (m : M A) : Trace := fst m.

Definition invoke {A} (m : M A) : M unit := (trace_of m, Normal tt).

(* ================================================================= *)
(** ** [containsUnsupportedMathFunction] *)

(** css-tree's [find(ast, fn)]: [walk] enters the node, then its
    children from left to right, and stops at the first node on which
    [fn] holds. *)
Fixpoint find (fn : CssNode -> bool) (ast : CssNode) : option CssNode :=
  match ast with
  | mkCssNode _ _ cs =>
      if fn ast then Some ast
      else
        (fix find_list (l : list CssNode) : option CssNode :=
           match l with
           | [] => None
           | c :: l' =>
               match find fn c with
               | Some found => Some found
               | None => find_list l'
               end
           end) cs
  end.

(** The search through a list of children, as [find] runs it. *)
Fixpoint find_list (fn : CssNode -> bool) (l : list CssNode) : option CssNode :=
  match l with
  | [] => None
  | c :: l' =>
      match find fn c with
      | Some found => Some found
      | None => find_list fn l'
      end
  end.

(** [['clamp', 'min', 'max'].includes(s)] *)
Definition includes (l : list string) (s : string) : bool :=
  existsb (String.eqb s) l.

Definition unsupportedMathFunctions : list string := ["clamp"; "min"; "max"].

Definition isUnsupportedMathFunction (node : CssNode) : bool :=
  String.eqb (node_type node) "Function"
  && includes unsupportedMathFunctions (node_name node).

(** [Boolean(find(cssTreeNode, ...))] *)
Definition containsUnsupportedMathFunction (cssTreeNode : CssNode) : bool :=
  match find isUnsupportedMathFunction cssTreeNode with
  | Some _ => true
  | None => false
  end.

(** [n] occurs in [t], at any depth. *)
Inductive occurs_in (n : CssNode) : CssNode -> Prop :=
| occurs_here : occurs_in n n
| occurs_below : forall t c,
    In c (node_children t) -> occurs_in n c -> occurs_in n t.

(* ================================================================= *)
(** ** The rule *)

Definition ruleName : string := "declaration-property-value-no-unknown".

(** The template given to [ruleMessages]:
    [Unexpected unknown value "${value}" for property "${property}"]. *)
Definition rejected (property value : string) : string :=
  "Unexpected unknown value " ++ dquote ++ value ++ dquote
  ++ " for property " ++ dquote ++ property ++ dquote.

(** [Cannot parse property value "${value}"] *)
Definition cannotParse (value : string) : string :=
  "Cannot parse property value " ++ dquote ++ value ++ dquote.

(** [find] on the entries of [ignoreProperties]: the first entry whose
    key matches. *)
Fixpoint array_find {A} (p : A -> bool) (l : list A) : option A :=
  match l with
  | [] => None
  | x :: l' => if p x then Some x else array_find p l'
  end.

Section Rule.

(** The collaborators. *)
Variable validateOptions : Js.Value -> option SecondaryOptions -> bool.
Variable ruleMessages :
  string -> (string -> string -> string) -> (string -> string -> string).
Variable matchesStringOrRegExp : string -> Js.Value -> bool.
Variable isStandardSyntaxDeclaration : Decl -> bool.
Variable isStandardSyntaxProperty : string -> bool.
Variable isStandardSyntaxValue : string -> bool.
Variable isCustomProperty : string -> bool.
Variable declarationValueIndex : Decl -> Z.
(** css-tree: [parse] throws ([None]) or gives a tree; [fork] builds
    a lexer; [matchProperty] is the lexer's method. *)
Variable parse : string -> option CssNode.
Variable Lexer : Type.
Variable fork : list (string * string) -> list (string * string) -> Lexer.
Variable matchProperty : Lexer -> string -> CssNode -> MatchResult.

(** [messages.rejected] *)
Definition messages_rejected : string -> string -> string :=
  ruleMessages ruleName rejected.

(** [/^-moz-initial$/i.test(value)] *)
Definition isMozInitial (value : string) : bool :=
  Js.test_anchored_literal_i "-moz-initial" value.

Section Run.

(** The values computed once, before [walkDecls]. *)
Variable ignoreProperties : list (string * Js.Value).
Variable forkedLexer : Lexer.

(** [isPropIgnored]: the value pattern of the first entry whose
    name pattern matches, [undefined] when there is none; then
    [valuePattern && matchesStringOrRegExp(value, valuePattern)],
    read as a condition. *)
Definition isPropIgnored (name value : string) : bool :=
  let valuePattern :=
    match array_find
            (fun entry => matchesStringOrRegExp name (Js.Str (fst entry)))
            ignoreProperties with
    | Some entry => snd entry
    | None => Js.Undefined
    end in
  Js.truthy valuePattern && matchesStringOrRegExp value valuePattern.

(** The entry [(namePattern, valuePattern)] is the first of
    [ignoreProperties] whose name pattern matches [name]. *)
Definition firstNameMatch (name namePattern : string) (valuePattern : Js.Value) : Prop :=
  exists before after,
    ignoreProperties = (before ++ (namePattern, valuePattern) :: after)%list
    /\ Forall (fun entry => matchesStringOrRegExp name (Js.Str (fst entry)) = false)
              before
    /\ matchesStringOrRegExp name (Js.Str namePattern) = true.

(** Lines 102-123: from [matchProperty] to [report]. *)
Definition matchAndReport (decl : Decl) (cssTreeValueNode : CssNode) : M unit :=
  let prop := decl.(prop) in
  let value := decl.(value) in
  result <- call (CMatchProperty prop cssTreeValueNode)
                 (matchProperty forkedLexer prop cssTreeValueNode) ;;
  match result.(error) with
  | None => return_
  | Some error =>
      return_if (negb (String.eqb error.(name) "SyntaxMatchError")) ;;
      return_if (negb (String.eqb error.(rawMessage) "Mismatch")) ;;
      let mismatchValue :=
        Js.slice value error.(mismatchOffset)
                 (error.(mismatchOffset) + error.(mismatchLength)) in
      base <- call (CDeclarationValueIndex decl) (declarationValueIndex decl) ;;
      let index := base + error.(mismatchOffset) in
      let endIndex := index + error.(mismatchLength) in
      emit (Report (messages_rejected prop mismatchValue) decl index endIndex ruleName)
  end.

(** The diagnostic of lines 112-123 for a mismatch [e]. *)
Definition reportFor (decl : Decl) (e : MatchError) : Diagnostic :=
  Report
    (messages_rejected decl.(prop)
       (Js.slice decl.(value) e.(mismatchOffset)
                 (e.(mismatchOffset) + e.(mismatchLength))))
    decl
    (declarationValueIndex decl + e.(mismatchOffset))
    (declarationValueIndex decl + e.(mismatchOffset) + e.(mismatchLength))
    ruleName.

(** The callback of [root.walkDecls], lines 70-124. *)
Definition declCallback (decl : Decl) : M unit :=
  let prop := decl.(prop) in
  let value := decl.(value) in
  return_if (isMozInitial value) ;;
  b <- call (CIsStandardSyntaxDeclaration decl) (isStandardSyntaxDeclaration decl) ;;
  return_if (negb b) ;;
  b <- call (CIsStandardSyntaxProperty prop) (isStandardSyntaxProperty prop) ;;
  return_if (negb b) ;;
  b <- call (CIsStandardSyntaxValue value) (isStandardSyntaxValue value) ;;
  return_if (negb b) ;;
  b <- call (CIsCustomProperty prop) (isCustomProperty prop) ;;
  return_if b ;;
  b <- call (CIsPropIgnored prop value) (isPropIgnored prop value) ;;
  return_if b ;;
  parsed <- call (CParse value) (parse value) ;;
  match parsed with
  | None =>
      (* catch (e) *)
      emit (Warn (cannotParse value) decl "parseError") ;;
      return_
  | Some cssTreeValueNode =>
      b <- call (CContainsUnsupportedMathFunction cssTreeValueNode)
                (containsUnsupportedMathFunction cssTreeValueNode) ;;
      return_if b ;;
      matchAndReport decl cssTreeValueNode
  end.

(** The declaration gets past every [return;] of lines 75-85. *)
Definition eligible (decl : Decl) : bool :=
  negb (isMozInitial decl.(value))
  && isStandardSyntaxDeclaration decl
  && isStandardSyntaxProperty decl.(prop)
  && isStandardSyntaxValue decl.(value)
  && negb (isCustomProperty decl.(prop))
  && negb (isPropIgnored decl.(prop) decl.(value)).

(** The calls an eligible declaration has made when it gets to
    [parse]. *)
Definition filterCalls (decl : Decl) : Trace :=
  [ Called (CIsStandardSyntaxDeclaration decl);
    Called (CIsStandardSyntaxProperty decl.(prop));
    Called (CIsStandardSyntaxValue decl.(value));
    Called (CIsCustomProperty decl.(prop));
    Called (CIsPropIgnored decl.(prop) decl.(value)) ].

(** The declaration reaches grammar matching: the callback calls
    [matchProperty] on the tree. *)
Definition reachesMatching (decl : Decl) (tree : CssNode) : Prop :=
  In (Called (CMatchProperty decl.(prop) tree)) (trace_of (declCallback decl)).

(** Grammar matching is not attempted. *)
Definition matchingNotAttempted (decl : Decl) : Prop :=
  forall p tree, ~ In (Called (CMatchProperty p tree)) (trace_of (declCallback decl)).

(** The pipeline of the specification for a declaration that is not
    set aside as [-moz-initial], written out step by step with what
    each step leaves in the trace.  Eligibility: the declaration, the
    property and the value have to be standard syntax, the property
    must not be a custom property, and the declaration must not be
    ignored; a declaration that fails one of these is skipped there.
    Parsing: a value that does not parse gets the parse-failure
    warning and is not matched.  Suppression: a tree with an
    unsupported math function is not matched.  Matching: a result
    that is a [SyntaxMatchError] with message [Mismatch] is reported,
    with the mismatch located in the declaration and the mismatched
    text quoted; any other result is passed over. *)
Definition normalPipeline (decl : Decl) : M unit :=
  let checked (n : nat) : Trace := firstn n (filterCalls decl) in
  if negb (isStandardSyntaxDeclaration decl) then (checked 1%nat, Return)
  else if negb (isStandardSyntaxProperty decl.(prop)) then (checked 2%nat, Return)
  else if negb (isStandardSyntaxValue decl.(value)) then (checked 3%nat, Return)
  else if isCustomProperty decl.(prop) then (checked 4%nat, Return)
  else if isPropIgnored decl.(prop) decl.(value) then (checked 5%nat, Return)
  else
    match parse decl.(value) with
    | None =>
        ((filterCalls decl
          ++ [ Called (CParse decl.(value));
               Emitted (Warn (cannotParse decl.(value)) decl "parseError") ])%list,
         Return)
    | Some tree =>
        let parsed : Trace :=
          (filterCalls decl
           ++ [ Called (CParse decl.(value));
                Called (CContainsUnsupportedMathFunction tree) ])%list in
        if containsUnsupportedMathFunction tree then (parsed, Return)
        else
          let matched : Trace :=
            (parsed ++ [Called (CMatchProperty decl.(prop) tree)])%list in
          match (matchProperty forkedLexer decl.(prop) tree).(error) with
          | None => (matched, Return)
          | Some e =>
              if String.eqb e.(name) "SyntaxMatchError"
                 && String.eqb e.(rawMessage) "Mismatch"
              then
                let startIndex := declarationValueIndex decl + e.(mismatchOffset) in
                ((matched
                  ++ [ Called (CDeclarationValueIndex decl);
                       Emitted
                         (Report
                            (ruleMessages ruleName rejected decl.(prop)
                               (Js.slice decl.(value) e.(mismatchOffset)
                                         (e.(mismatchOffset) + e.(mismatchLength))))
                            decl startIndex (startIndex + e.(mismatchLength))
                            ruleName) ])%list,
                 Normal tt)
              else (matched, Return)
          end
    end.

End Run.

(** The match result is the one the rule reports: an error whose
    [name] is [SyntaxMatchError] and whose [rawMessage] is
    [Mismatch]. *)
Definition reportable (r : MatchResult) (e : MatchError) : Prop :=
  r.(error) = Some e
  /\ e.(name) = "SyntaxMatchError" /\ e.(rawMessage) = "Mismatch".

(** [root.walkDecls(callback)]: the callback is called on every
    declaration of the root, in document order; it never returns
    [false], so the walk is never cut short. *)
Fixpoint walkDecls (root : list Decl) (callback : Decl -> M unit) : M unit :=
  match root with
  | [] => ret tt
  | decl :: rest => invoke (callback decl) ;; walkDecls rest callback
  end.

Definition orEmpty {A} (o : option (list A)) : list A :=
  match o with
  | Some l => l
  | None => []
  end.

(** [(secondaryOptions && secondaryOptions.field) || {}] *)
Definition optionField {A} (field : SecondaryOptions -> option (list A))
           (secondaryOptions : option SecondaryOptions) : list A :=
  match secondaryOptions with
  | Some o => orEmpty (field o)
  | None => []
  end.

(** The function the rule returns, applied to a root: lines 30-125. *)
Definition rule (primary : Js.Value) (secondaryOptions : option SecondaryOptions)
           (root : list Decl) : M unit :=
  validOptions <- call (CValidateOptions primary secondaryOptions)
                       (validateOptions primary secondaryOptions) ;;
  return_if (negb validOptions) ;;
  let ignoreProperties := optionField opt_ignoreProperties secondaryOptions in
  let propertiesSyntax := optionField opt_propertiesSyntax secondaryOptions in
  let typesSyntax := optionField opt_typesSyntax secondaryOptions in
  forkedLexer <- call (CFork propertiesSyntax typesSyntax)
                      (fork propertiesSyntax typesSyntax) ;;
  walkDecls root (declCallback ignoreProperties forkedLexer).

End Rule.

(* ================================================================= *)
(** ** The words of the specification *)

(** A lower-case letter and its upper-case form. *)
Definition is_lower (c : ascii) : bool :=
  ((97 <=? nat_of_ascii c) && (nat_of_ascii c <=? 122))%nat.

Definition upper (c : ascii) : ascii := ascii_of_nat (nat_of_ascii c - 32).

(** An upper-case letter. *)
Definition is_upper (c : ascii) : bool :=
  ((65 <=? nat_of_ascii c) && (nat_of_ascii c <=? 90))%nat.

(** No upper-case letter in the string. *)
Fixpoint no_upper (s : string) : bool :=
  match s with
  | EmptyString => true
  | String c s' => negb (is_upper c) && no_upper s'
  end.

(** [v] is the token [lit] "in any letter case": [lit] with some of
    its lower-case letters written in upper case. *)
Inductive any_case_of : string -> string -> Prop :=
| any_case_nil : any_case_of EmptyString EmptyString
| any_case_same : forall c lit v,
    any_case_of lit v -> any_case_of (String c lit) (String c v)
| any_case_upper : forall c lit v,
    is_lower c = true ->
    any_case_of lit v -> any_case_of (String c lit) (String (upper c) v).

(** [value[offset : offset + length]] for an offset and a length that
    are not negative: the [length] characters from position [offset],
    fewer when the string ends before. *)
Definition substring_at (value : string) (offset length : Z) : string :=
  substring (Z.to_nat offset) (Z.to_nat length) value.

(** [needle] occurs in [s] with something before or after it. *)
Definition proper_substring (needle s : string) : Prop :=
  exists before after,
    s = before ++ needle ++ after
    /\ (before <> EmptyString \/ after <> EmptyString).

(* ================================================================= *)
(** ** Stand-ins for the collaborators, for running the rule *)

Module Stub.

Definition validateOptions (primary : Js.Value) (_ : option SecondaryOptions) : bool :=
  match primary with
  | Js.Bool true => true
  | _ => false
  end.

Definition ruleMessages (ruleName : string) (f : string -> string -> string)
  : string -> string -> string :=
  fun a b => f a b ++ " (" ++ ruleName ++ ")".

Definition matchesStringOrRegExp (input : string) (comparison : Js.Value) : bool :=
  match comparison with
  | Js.Str s => String.eqb input s
  | _ => false
  end.

Definition always (_ : Decl) : bool := true.
Definition standard (_ : string) : bool := true.

Definition isCustomProperty (p : string) : bool := prefix "--" p.

Definition declarationValueIndex (decl : Decl) : Z :=
  Z.of_nat (String.length decl.(prop) + String.length decl.(raws_between)).

(** A parser that knows one word per value, one function call, and
    rejects the value [(]. *)
Definition parse (v : string) : option CssNode :=
  if String.eqb v "(" then None
  else if String.eqb v "calc(min(1px, 2px)) redd" then
    Some (mkCssNode "Value" EmptyString
            [ mkCssNode "Function" "calc"
                [ mkCssNode "Function" "min"
                    [ mkCssNode "Dimension" EmptyString [];
                      mkCssNode "Operator" EmptyString [];
                      mkCssNode "Dimension" EmptyString [] ] ];
              mkCssNode "Identifier" "redd" [] ])
  else Some (mkCssNode "Value" EmptyString [mkCssNode "Identifier" v []]).

Definition fork (_ _ : list (string * string)) : unit := tt.

(** A lexer that accepts [red] for [color], wants more than one term
    for [font], and has no other property. *)
Definition matchProperty (_ : unit) (p : string) (tree : CssNode) : MatchResult :=
  if String.eqb p "color" then
    match tree with
    | mkCssNode _ _ [mkCssNode _ "red" _] => mkMatchResult None
    | mkCssNode _ _ [mkCssNode _ w _] =>
        mkMatchResult
          (Some (mkMatchError (Z.of_nat (String.length w)) 0 "SyntaxMatchError" "Mismatch"))
    | _ => mkMatchResult (Some (mkMatchError 0 0 "SyntaxMatchError" "Mismatch"))
    end
  else if String.eqb p "font" then
    mkMatchResult (Some (mkMatchError 0 0 "SyntaxMatchError" "Mismatch"))
  else
    mkMatchResult (Some (mkMatchError 0 0 "SyntaxReferenceError" "Unknown property")).

Definition declCallback (ignoreProperties : list (string * Js.Value)) : Decl -> M unit :=
  declCallback ruleMessages matchesStringOrRegExp always standard standard
               isCustomProperty declarationValueIndex parse matchProperty
               ignoreProperties tt.

Definition rule : Js.Value -> option SecondaryOptions -> list Decl -> M unit :=
  rule validateOptions ruleMessages matchesStringOrRegExp always standard standard
       isCustomProperty declarationValueIndex parse fork matchProperty.

(** [color: redd], [font: 12px], [color: (], [display: -MOZ-Initial]. *)
Definition color_redd : Decl := mkDecl "color" "redd" ": ".
Definition color_red : Decl := mkDecl "color" "red" ": ".
Definition font_12px : Decl := mkDecl "font" "12px" ": ".
Definition color_paren : Decl := mkDecl "color" "(" ": ".
Definition display_moz : Decl := mkDecl "display" "-MOZ-Initial" ": ".
Definition color_moz_more : Decl := mkDecl "color" "-moz-initial !x" ": ".
Definition color_min : Decl := mkDecl "color" "calc(min(1px, 2px)) redd" ": ".

Definition min_call : CssNode :=
  mkCssNode "Function" "min"
    [ mkCssNode "Dimension" EmptyString [];
      mkCssNode "Operator" EmptyString [];
      mkCssNode "Dimension" EmptyString [] ].
Definition calc_call : CssNode := mkCssNode "Function" "calc" [min_call].
Definition calc_tree : CssNode :=
  mkCssNode "Value" EmptyString [calc_call; mkCssNode "Identifier" "redd" []].
Definition redd_tree : CssNode :=
  mkCssNode "Value" EmptyString [mkCssNode "Identifier" "redd" []].
Definition redd_error : MatchError :=
  mkMatchError 4 0 "SyntaxMatchError" "Mismatch".

End Stub.

(** The invariant of the data model on ranges, for the diagnostics of
    one declaration: the end index is greater than the start index and
    neither is negative. *)
Definition rangesNonEmpty (callback : Decl -> M unit) (decl : Decl) : Prop :=
  forall d startIndex endIndex,
    In d (diagnostics (trace_of (callback decl))) ->
    diag_range d = Some (startIndex, endIndex) ->
    startIndex < endIndex /\ 0 <= startIndex /\ 0 <= endIndex.

(** The calls of the callback in the order of the source: the five
    checks of lines 77-85, [parse], and, on a tree, the search for a
    math function, [matchProperty] and [declarationValueIndex]. *)
Definition fullCalls (decl : Decl) (parsed : option CssNode) : list Call :=
  [ CIsStandardSyntaxDeclaration decl;
    CIsStandardSyntaxProperty decl.(prop);
    CIsStandardSyntaxValue decl.(value);
    CIsCustomProperty decl.(prop);
    CIsPropIgnored decl.(prop) decl.(value);
    CParse decl.(value) ]
  ++ match parsed with
     | Some tree =>
         [ CContainsUnsupportedMathFunction tree;
           CMatchProperty decl.(prop) tree;
           CDeclarationValueIndex decl ]
     | None => []
     end.

Definition isForkCall (c : Call) : bool :=
  match c with
  | CFork _ _ => true
  | _ => false
  end.

Definition isValidateOptionsCall (c : Call) : bool :=
  match c with
  | CValidateOptions _ _ => true
  | _ => false
  end.

(** A [Function] node named [clamp], [min] or [max] occurs in the
    tree. *)
Definition hasUnsupportedMathNode (tree : CssNode) : Prop :=
  exists node,
    occurs_in node tree
    /\ node_type node = "Function"
    /\ In (node_name node) ["clamp"; "min"; "max"].

(* ================================================================= *)
(** ** Traces *)

Unset Implicit Arguments.

Lemma diagnostics_app (t u : Trace) :
  diagnostics (t ++ u)%list = (diagnostics t ++ diagnostics u)%list.
Proof.
  induction t as [| [c | d] t IH]; simpl; [reflexivity | assumption |].
  now rewrite IH.
Qed.

Lemma diagnostics_called (t : Trace) :
  (forall e, In e t -> exists c, e = Called c) -> diagnostics t = [].
Proof.
  induction t as [| e t IH]; intros H; [reflexivity |].
  destruct (H e (or_introl eq_refl)) as [c ->]. simpl.
  apply IH. intros e' He'. apply H. now right.
Qed.

Lemma In_firstn {A} (n : nat) (l : list A) (x : A) :
  In x (firstn n l) -> In x l.
Proof.
  intros H. rewrite <- (firstn_skipn n l). apply in_or_app. now left.
Qed.

Lemma array_find_first {A} (p : A -> bool) (before after : list A) (x : A) :
  Forall (fun y => p y = false) before -> p x = true ->
  array_find p (before ++ x :: after) = Some x.
Proof.
  intros Hb Hx. induction Hb as [| y before Hy _ IH]; simpl.
  - now rewrite Hx.
  - now rewrite Hy.
Qed.

Lemma array_find_some {A} (p : A -> bool) (l : list A) (x : A) :
  array_find p l = Some x ->
  exists before after,
    l = (before ++ x :: after)%list
    /\ Forall (fun y => p y = false) before /\ p x = true.
Proof.
  induction l as [| y l IH]; simpl; [discriminate |].
  destruct (p y) eqn:Hy.
  - intros [= ->]. exists [], l. auto.
  - intros H. destruct (IH H) as (before & after & -> & Hb & Hx).
    exists (y :: before), after. auto.
Qed.

Lemma array_find_none {A} (p : A -> bool) (l : list A) :
  array_find p l = None -> Forall (fun y => p y = false) l.
Proof.
  induction l as [| y l IH]; simpl; [constructor |].
  destruct (p y) eqn:Hy; [discriminate | auto].
Qed.

Lemma bind_ret {A B} (a : A) (k : A -> M B) : bind (ret a) k = k a.
Proof. unfold bind, ret. now destruct (k a). Qed.

Lemma bind_call {A B} (c : Call) (v : A) (k : A -> M B) :
  bind (call c v) k = (Called c :: trace_of (k v), snd (k v)).
Proof. unfold bind, call. now destruct (k v). Qed.

Lemma trace_of_bind {A B} (m : M A) (k : A -> M B) :
  trace_of (bind m k)
  = match snd m with
    | Normal a => (trace_of m ++ trace_of (k a))%list
    | Return => trace_of m
    end.
Proof.
  destruct m as [t [a |]]; simpl; [| reflexivity].
  unfold bind. destruct (k a) as [t' c]. reflexivity.
Qed.

Lemma calls_app (t u : Trace) :
  calls (t ++ u)%list = (calls t ++ calls u)%list.
Proof.
  induction t as [| [c | d] t IH]; simpl; [reflexivity | | assumption].
  now rewrite IH.
Qed.

Lemma calls_called_emitted (cs : list Call) (ds : list Diagnostic) :
  calls (map Called cs ++ map Emitted ds)%list = cs.
Proof.
  rewrite calls_app.
  assert (H1 : calls (map Called cs) = cs)
    by (induction cs as [| c cs IH]; simpl; [reflexivity | now rewrite IH]).
  assert (H2 : calls (map Emitted ds) = [])
    by (induction ds as [| d ds IH]; simpl; [reflexivity | exact IH]).
  now rewrite H1, H2, app_nil_r.
Qed.

(* ================================================================= *)
(** ** The tree search *)

Section Find.

Variable fn : CssNode -> bool.

Lemma find_unfold (ast : CssNode) :
  find fn ast = if fn ast then Some ast else find_list fn (node_children ast).
Proof.
  destruct ast as [t nm cs]. simpl. destruct (fn _); [reflexivity |].
  induction cs as [| c cs IH]; simpl; [reflexivity |].
  destruct (find fn c); [reflexivity | exact IH].
Qed.

Lemma find_list_child (l : list CssNode) (c : CssNode) :
  In c l -> find fn c <> None -> find_list fn l <> None.
Proof.
  induction l as [| x l IH]; simpl; [tauto |].
  intros [-> | Hin] Hc.
  - destruct (find fn c); [discriminate | contradiction].
  - destruct (find fn x); [discriminate | now apply IH].
Qed.

(** A node on which [fn] holds, at any depth, is enough for [find]
    to find something. *)
Lemma find_occurs (n ast : CssNode) :
  occurs_in n ast -> fn n = true -> find fn ast <> None.
Proof.
  intros Hocc Hfn. induction Hocc as [| t c Hin Hocc IH].
  - rewrite find_unfold, Hfn. discriminate.
  - rewrite find_unfold. destruct (fn t); [discriminate |].
    eapply find_list_child; eassumption.
Qed.

(** An induction principle that goes through the lists of children. *)
Lemma CssNode_children_ind (P : CssNode -> Prop) :
  (forall t nm cs, Forall P cs -> P (mkCssNode t nm cs)) ->
  forall n, P n.
Proof.
  intros H. fix IH 1. intros [t nm cs]. apply H.
  induction cs as [| c cs IHcs]; constructor; [apply IH | exact IHcs].
Qed.

(** What [find] returns is a node of the tree on which [fn] holds. *)
Lemma find_sound (ast found : CssNode) :
  find fn ast = Some found -> occurs_in found ast /\ fn found = true.
Proof.
  revert found. induction ast as [t nm cs IH] using CssNode_children_ind.
  intros found. rewrite find_unfold.
  destruct (fn (mkCssNode t nm cs)) eqn:Hfn.
  - intros [= <-]. split; [constructor | exact Hfn].
  - simpl. clear Hfn.
    assert (Hl : forall l, Forall
              (fun c => forall f, find fn c = Some f -> occurs_in f c /\ fn f = true) l ->
              find_list fn l = Some found ->
              exists c, In c l /\ occurs_in found c /\ fn found = true).
    { induction l as [| c l IHl]; simpl; [discriminate |].
      intros Hall. inversion Hall as [| ? ? Hc Hrest]; subst.
      destruct (find fn c) as [f |] eqn:Hf.
      - intros [= ->]. exists c. split; [now left | now apply Hc].
      - intros Hfound. destruct (IHl Hrest Hfound) as [c' [Hin Hc']].
        exists c'. split; [now right | exact Hc']. }
    intros Hfound. destruct (Hl cs IH Hfound) as [c [Hin [Hocc Hf]]].
    split; [| exact Hf].
    apply occurs_below with (c := c); [exact Hin | exact Hocc].
Qed.

End Find.

Lemma includes_In (l : list string) (s : string) :
  includes l s = true <-> In s l.
Proof.
  unfold includes. rewrite existsb_exists. split.
  - intros [x [Hin Heq]]. apply String.eqb_eq in Heq. now subst.
  - intros Hin. exists s. split; [exact Hin | apply String.eqb_refl].
Qed.

Lemma isUnsupportedMathFunction_spec (node : CssNode) :
  isUnsupportedMathFunction node = true
  <-> node_type node = "Function" /\ In (node_name node) ["clamp"; "min"; "max"].
Proof.
  unfold isUnsupportedMathFunction.
  rewrite andb_true_iff, String.eqb_eq, includes_In. reflexivity.
Qed.

(** [containsUnsupportedMathFunction] holds exactly when a [Function]
    node named [clamp], [min] or [max] occurs in the tree, at any
    depth. *)
Lemma containsUnsupportedMathFunction_spec (tree : CssNode) :
  containsUnsupportedMathFunction tree = true
  <-> exists node, occurs_in node tree
                   /\ node_type node = "Function"
                   /\ In (node_name node) ["clamp"; "min"; "max"].
Proof.
  unfold containsUnsupportedMathFunction. split.
  - destruct (find isUnsupportedMathFunction tree) as [found |] eqn:Hfind;
      [intros _ | discriminate].
    apply find_sound in Hfind. destruct Hfind as [Hocc Hfn].
    exists found. split; [exact Hocc | now apply isUnsupportedMathFunction_spec].
  - intros [node [Hocc Hnode]].
    apply isUnsupportedMathFunction_spec in Hnode.
    pose proof (find_occurs isUnsupportedMathFunction _ _ Hocc Hnode) as Hfind.
    destruct (find isUnsupportedMathFunction tree); [reflexivity | contradiction].
Qed.

(* ================================================================= *)
(** ** Strings *)

Lemma substring_nil (n m : nat) : substring n m EmptyString = EmptyString.
Proof. destruct n, m; reflexivity. Qed.

Lemma substring_none (s : string) (n : nat) : substring n 0 s = EmptyString.
Proof.
  revert n. induction s as [| c s IH]; intros n; [apply substring_nil |].
  destruct n; simpl; [reflexivity | apply IH].
Qed.

Lemma substring_beyond (s : string) (n m : nat) :
  (String.length s <= n)%nat -> substring n m s = EmptyString.
Proof.
  revert n. induction s as [| c s IH]; intros n Hn; [apply substring_nil |].
  simpl in Hn. destruct n as [| n]; [lia |]. simpl. apply IH. lia.
Qed.

Lemma substring_clamped (s : string) (n m : nat) :
  substring n (Nat.min m (String.length s - n)) s = substring n m s.
Proof.
  revert n m. induction s as [| c s IH]; intros n m.
  - now rewrite !substring_nil.
  - destruct n as [| n].
    + destruct m as [| m]; [reflexivity |].
      change (Nat.min (S m) (String.length (String c s) - 0))
        with (S (Nat.min m (String.length s))).
      simpl. f_equal. specialize (IH 0%nat m).
      now rewrite Nat.sub_0_r in IH.
    + simpl. apply IH.
Qed.

(** For an offset and a length that are not negative, [slice] is the
    substring of the specification. *)
Lemma slice_substring_at (s : string) (offset length : Z) :
  0 <= offset -> 0 <= length ->
  Js.slice s offset (offset + length) = substring_at s offset length.
Proof.
  intros Ho Hl. unfold Js.slice, substring_at.
  destruct (offset <? 0) eqn:E1; [apply Z.ltb_lt in E1; lia |].
  destruct (offset + length <? 0) eqn:E2; [apply Z.ltb_lt in E2; lia |].
  set (len := Z.of_nat (String.length s)).
  destruct (Z.min (offset + length) len <=? Z.min offset len) eqn:E3.
  - apply Z.leb_le in E3.
    destruct (Z.eq_dec length 0) as [-> | Hpos].
    + simpl. now rewrite substring_none.
    + symmetry. apply substring_beyond. unfold len in E3. lia.
  - apply Z.leb_gt in E3.
    rewrite <- (substring_clamped s (Z.to_nat offset) (Z.to_nat length)).
    f_equal; unfold len in *; lia.
Qed.

Lemma length_canonicalize_all (s : string) :
  String.length (Js.canonicalize_all s) = String.length s.
Proof. induction s as [| c s IH]; simpl; [reflexivity | now rewrite IH]. Qed.

Lemma length_append (s t : string) :
  String.length (s ++ t) = (String.length s + String.length t)%nat.
Proof. induction s as [| c s IH]; simpl; [reflexivity | now rewrite IH]. Qed.

Lemma length_any_case_of (lit v : string) :
  any_case_of lit v -> String.length v = String.length lit.
Proof. induction 1; simpl; congruence. Qed.

(** Every character, by its eight bits. *)
Ltac each_ascii c :=
  destruct c as [[] [] [] [] [] [] [] []].

Lemma canonicalize_lower (c : ascii) :
  is_lower c = true -> Js.canonicalize c = upper c.
Proof. unfold Js.canonicalize, is_lower. now intros ->. Qed.

Lemma canonicalize_not_lower (c : ascii) :
  is_lower c = false -> Js.canonicalize c = c.
Proof. unfold Js.canonicalize, is_lower. now intros ->. Qed.

Lemma canonicalize_upper (c : ascii) :
  is_lower c = true -> Js.canonicalize (upper c) = upper c.
Proof. each_ascii c; intros H; try discriminate H; reflexivity. Qed.

Lemma upper_injective (c d : ascii) :
  is_lower c = true -> is_lower d = true -> upper c = upper d -> c = d.
Proof.
  intros Hc Hd H.
  assert (L : forall x, is_lower x = true ->
                        ascii_of_nat (nat_of_ascii (upper x) + 32) = x).
  { intros x. each_ascii x; intros Hx; try discriminate Hx; reflexivity. }
  rewrite <- (L c Hc), <- (L d Hd). now rewrite H.
Qed.

Lemma upper_is_upper (c : ascii) : is_lower c = true -> is_upper (upper c) = true.
Proof. each_ascii c; intros H; try discriminate H; reflexivity. Qed.

Lemma any_case_canonical (lit v : string) :
  any_case_of lit v -> Js.canonicalize_all v = Js.canonicalize_all lit.
Proof.
  induction 1 as [| c lit v _ IH | c lit v Hc _ IH]; simpl.
  - reflexivity.
  - now rewrite IH.
  - rewrite IH. f_equal.
    now rewrite (canonicalize_upper _ Hc), (canonicalize_lower _ Hc).
Qed.

Lemma canonical_any_case (lit v : string) :
  no_upper lit = true ->
  Js.canonicalize_all v = Js.canonicalize_all lit -> any_case_of lit v.
Proof.
  revert v. induction lit as [| l lit IH]; intros [| c v]; simpl;
    try discriminate; [constructor |].
  intros Hno [= Hc Hrest]. apply andb_true_iff in Hno. destruct Hno as [Hl Hno].
  specialize (IH v Hno Hrest).
  destruct (is_lower c) eqn:Ec, (is_lower l) eqn:El.
  - rewrite (canonicalize_lower _ Ec), (canonicalize_lower _ El) in Hc.
    apply upper_injective in Hc; try assumption. subst. now constructor.
  - rewrite (canonicalize_lower _ Ec), (canonicalize_not_lower _ El) in Hc.
    subst l. rewrite (upper_is_upper _ Ec) in Hl. discriminate.
  - rewrite (canonicalize_not_lower _ Ec), (canonicalize_lower _ El) in Hc.
    subst c. now constructor.
  - rewrite (canonicalize_not_lower _ Ec), (canonicalize_not_lower _ El) in Hc.
    subst. now constructor.
Qed.

(** The regular expression test accepts exactly the literal in any
    letter case. *)
Lemma test_anchored_literal_i_spec (lit v : string) :
  no_upper lit = true ->
  Js.test_anchored_literal_i lit v = true <-> any_case_of lit v.
Proof.
  intros Hno. unfold Js.test_anchored_literal_i. rewrite String.eqb_eq.
  split; [now apply canonical_any_case | apply any_case_canonical].
Qed.

(** [substring] cuts a part out of the string: what is before it has
    [n] characters (all of the string when it is shorter). *)
Lemma substring_infix (s : string) (n m : nat) :
  exists before after,
    s = before ++ substring n m s ++ after
    /\ String.length before = Nat.min n (String.length s).
Proof.
  revert n m. induction s as [| c s IH]; intros n m.
  - exists EmptyString, EmptyString. rewrite substring_nil. split; [reflexivity |].
    simpl. now rewrite Nat.min_0_r.
  - destruct n as [| n].
    + destruct m as [| m].
      * exists EmptyString, (String c s). split; reflexivity.
      * destruct (IH 0%nat m) as (before & after & Hs & Hlen).
        destruct before as [| b before]; [| simpl in Hlen; discriminate].
        exists EmptyString, after. simpl in Hs |- *. split; [now f_equal | reflexivity].
    + destruct (IH n m) as (before & after & Hs & Hlen).
      exists (String c before), after. simpl. split; [now f_equal | now rewrite Hlen].
Qed.

Lemma length_substring (s : string) (n m : nat) :
  String.length (substring n m s) = Nat.min m (String.length s - n).
Proof.
  revert n m. induction s as [| c s IH]; intros n m.
  - rewrite substring_nil. simpl. now rewrite Nat.min_0_r.
  - destruct n as [| n].
    + destruct m as [| m]; [reflexivity |].
      simpl. f_equal. rewrite IH. now rewrite Nat.sub_0_r.
    + simpl. apply IH.
Qed.

(** Whatever its two arguments are, [slice] gives a part of the
    string. *)
Lemma slice_infix (s : string) (start stop : Z) :
  exists before after, s = before ++ Js.slice s start stop ++ after.
Proof.
  unfold Js.slice.
  set (from := if start <? 0 then _ else _).
  set (to := if stop <? 0 then _ else _).
  destruct (to <=? from).
  - exists EmptyString, s. reflexivity.
  - destruct (substring_infix s (Z.to_nat from) (Z.to_nat (to - from)))
      as (before & after & Hs & _).
    now exists before, after.
Qed.

(** A range that lies in the string is cut out exactly. *)
Lemma slice_in_range (s : string) (offset length : Z) :
  0 <= offset -> 0 <= length ->
  offset + length <= Z.of_nat (String.length s) ->
  exists before after,
    s = before ++ Js.slice s offset (offset + length) ++ after
    /\ Z.of_nat (String.length before) = offset
    /\ Z.of_nat (String.length (Js.slice s offset (offset + length))) = length.
Proof.
  intros Ho Hl Hin. rewrite (slice_substring_at s offset length Ho Hl).
  unfold substring_at.
  destruct (substring_infix s (Z.to_nat offset) (Z.to_nat length))
    as (before & after & Hs & Hlen).
  exists before, after. split; [exact Hs |]. rewrite Hlen, length_substring. lia.
Qed.

(** An empty range gives the empty string, wherever it is. *)
Lemma slice_empty_range (s : string) (offset : Z) :
  Js.slice s offset (offset + 0) = EmptyString.
Proof.
  unfold Js.slice. rewrite Z.add_0_r.
  set (from := if offset <? 0 then _ else _).
  now rewrite Z.leb_refl.
Qed.

(* ================================================================= *)
(** ** The callback, case by case *)

Section RuleFacts.

Variable validateOptions : Js.Value -> option SecondaryOptions -> bool.
Variable ruleMessages :
  string -> (string -> string -> string) -> (string -> string -> string).
Variable matchesStringOrRegExp : string -> Js.Value -> bool.
Variable isStandardSyntaxDeclaration : Decl -> bool.
Variable isStandardSyntaxProperty : string -> bool.
Variable isStandardSyntaxValue : string -> bool.
Variable isCustomProperty : string -> bool.
Variable declarationValueIndex : Decl -> Z.
Variable parse : string -> option CssNode.
Variable Lexer : Type.
Variable fork : list (string * string) -> list (string * string) -> Lexer.
Variable matchProperty : Lexer -> string -> CssNode -> MatchResult.

Section CallbackFacts.

Variable ignoreProperties : list (string * Js.Value).
Variable forkedLexer : Lexer.

Local Notation ignored :=
  (isPropIgnored matchesStringOrRegExp ignoreProperties).
Local Notation is_eligible :=
  (eligible matchesStringOrRegExp isStandardSyntaxDeclaration
            isStandardSyntaxProperty isStandardSyntaxValue isCustomProperty
            ignoreProperties).
Local Notation report_of :=
  (matchAndReport ruleMessages declarationValueIndex matchProperty forkedLexer).
Local Notation callback :=
  (declCallback ruleMessages matchesStringOrRegExp isStandardSyntaxDeclaration
                isStandardSyntaxProperty isStandardSyntaxValue isCustomProperty
                declarationValueIndex parse matchProperty
                ignoreProperties forkedLexer).
Local Notation report_for := (reportFor ruleMessages declarationValueIndex).

Lemma reportable_dec (r : MatchResult) :
  (exists e, reportable r e) \/ (forall e, ~ reportable r e).
Proof.
  unfold reportable. destruct (error r) as [e |].
  - destruct (String.eqb (name e) "SyntaxMatchError") eqn:En;
      [apply String.eqb_eq in En | apply String.eqb_neq in En].
    + destruct (String.eqb (rawMessage e) "Mismatch") eqn:Em;
        [apply String.eqb_eq in Em | apply String.eqb_neq in Em].
      * left. now exists e.
      * right. intros e' [[= <-] [_ H]]. contradiction.
    + right. intros e' [[= <-] [H _]]. contradiction.
  - right. intros e' [H _]. discriminate.
Qed.

(** Lines 102-123 on a reportable mismatch. *)
Lemma matchAndReport_reportable (decl : Decl) (tree : CssNode) (e : MatchError) :
  reportable (matchProperty forkedLexer decl.(prop) tree) e ->
  report_of decl tree
  = ([ Called (CMatchProperty decl.(prop) tree);
       Called (CDeclarationValueIndex decl);
       Emitted (report_for decl e) ], Normal tt).
Proof.
  intros [He [Hn Hm]]. unfold matchAndReport, reportFor.
  cbn. rewrite He. cbn. rewrite Hn, Hm. reflexivity.
Qed.

(** Lines 102-110 on any other outcome. *)
Lemma matchAndReport_silent (decl : Decl) (tree : CssNode) :
  (forall e, ~ reportable (matchProperty forkedLexer decl.(prop) tree) e) ->
  report_of decl tree = ([Called (CMatchProperty decl.(prop) tree)], Return).
Proof.
  intros Hno. unfold matchAndReport. cbn.
  destruct (error _) as [e |] eqn:He; [| reflexivity]. cbn.
  destruct (String.eqb (name e) "SyntaxMatchError") eqn:En; [| reflexivity].
  destruct (String.eqb (rawMessage e) "Mismatch") eqn:Em; [| reflexivity].
  exfalso. apply (Hno e). unfold reportable.
  apply String.eqb_eq in En, Em. auto.
Qed.

Lemma eligible_true (decl : Decl) :
  is_eligible decl = true <->
  isMozInitial decl.(value) = false
  /\ isStandardSyntaxDeclaration decl = true
  /\ isStandardSyntaxProperty decl.(prop) = true
  /\ isStandardSyntaxValue decl.(value) = true
  /\ isCustomProperty decl.(prop) = false
  /\ ignored decl.(prop) decl.(value) = false.
Proof.
  unfold eligible. rewrite !andb_true_iff, !negb_true_iff. tauto.
Qed.

(** What the callback does with an eligible declaration. *)
Lemma declCallback_eligible (decl : Decl) :
  is_eligible decl = true ->
  callback decl
  = match parse decl.(value) with
    | None =>
        ((filterCalls decl
          ++ [ Called (CParse decl.(value));
               Emitted (Warn (cannotParse decl.(value)) decl "parseError") ])%list,
         Return)
    | Some tree =>
        if containsUnsupportedMathFunction tree then
          ((filterCalls decl
            ++ [ Called (CParse decl.(value));
                 Called (CContainsUnsupportedMathFunction tree) ])%list,
           Return)
        else
          ((filterCalls decl
            ++ Called (CParse decl.(value))
               :: Called (CContainsUnsupportedMathFunction tree)
               :: trace_of (report_of decl tree))%list,
           snd (report_of decl tree))
    end.
Proof.
  intros H. apply eligible_true in H.
  destruct H as (Hmoz & Hdecl & Hprop & Hvalue & Hcustom & Hign).
  unfold declCallback. rewrite Hmoz. cbn -[matchAndReport].
  rewrite Hdecl. cbn -[matchAndReport]. rewrite Hprop. cbn -[matchAndReport].
  rewrite Hvalue. cbn -[matchAndReport]. rewrite Hcustom. cbn -[matchAndReport].
  rewrite Hign. cbn -[matchAndReport].
  destruct (parse (value decl)) as [tree |]; [| reflexivity].
  cbn -[matchAndReport].
  destruct (containsUnsupportedMathFunction tree); [reflexivity |].
  cbn -[matchAndReport].
  destruct (report_of decl tree) as [t c]. reflexivity.
Qed.

(** What the callback does with any other declaration: it stops at
    one of the [return;] of lines 75-85, having called nothing but
    the checks before it. *)
Lemma declCallback_not_eligible (decl : Decl) :
  is_eligible decl = false ->
  exists n, callback decl = (firstn n (filterCalls decl), Return).
Proof.
  unfold eligible, declCallback. intros H.
  destruct (isMozInitial (value decl)); [now exists 0%nat |]. cbn.
  destruct (isStandardSyntaxDeclaration decl); [| now exists 1%nat]. cbn.
  destruct (isStandardSyntaxProperty (prop decl)); [| now exists 2%nat]. cbn.
  destruct (isStandardSyntaxValue (value decl)); [| now exists 3%nat]. cbn.
  destruct (isCustomProperty (prop decl)); [now exists 4%nat |]. cbn.
  destruct (ignored (prop decl) (value decl)); [now exists 5%nat |].
  discriminate H.
Qed.

Lemma filterCalls_called (decl : Decl) (n : nat) (ev : Event) :
  In ev (firstn n (filterCalls decl)) ->
  exists c, ev = Called c /\ forall p tree, c <> CMatchProperty p tree.
Proof.
  intros Hin. apply In_firstn in Hin. simpl in Hin.
  repeat (destruct Hin as [<- | Hin];
          [eexists; split; [reflexivity | discriminate] |]).
  contradiction.
Qed.

Lemma diagnostics_filterCalls (decl : Decl) (n : nat) :
  diagnostics (firstn n (filterCalls decl)) = [].
Proof.
  apply diagnostics_called. intros ev Hin.
  destruct (filterCalls_called _ _ _ Hin) as [c [-> _]]. now exists c.
Qed.

(** The diagnostics of one declaration, in every case. *)
Lemma diagnostics_declCallback (decl : Decl) :
  diagnostics (trace_of (callback decl))
  = if is_eligible decl then
      match parse decl.(value) with
      | None => [Warn (cannotParse decl.(value)) decl "parseError"]
      | Some tree =>
          if containsUnsupportedMathFunction tree then []
          else diagnostics (trace_of (report_of decl tree))
      end
    else [].
Proof.
  destruct (is_eligible decl) eqn:E.
  - rewrite (declCallback_eligible _ E).
    destruct (parse (value decl)) as [tree |].
    + destruct (containsUnsupportedMathFunction tree); reflexivity.
    + reflexivity.
  - destruct (declCallback_not_eligible _ E) as [n ->].
    apply diagnostics_filterCalls.
Qed.

(** The calls to [matchProperty] of one declaration, in every case. *)
Lemma reachesMatching_spec (decl : Decl) (p : string) (tree : CssNode) :
  In (Called (CMatchProperty p tree)) (trace_of (callback decl))
  <-> p = decl.(prop)
      /\ is_eligible decl = true
      /\ parse decl.(value) = Some tree
      /\ containsUnsupportedMathFunction tree = false.
Proof.
  destruct (is_eligible decl) eqn:E.
  - rewrite (declCallback_eligible _ E).
    destruct (parse (value decl)) as [tree' |] eqn:Hp.
    + destruct (containsUnsupportedMathFunction tree') eqn:Hc.
      * split.
        -- cbn. intros H.
           repeat (destruct H as [H | H]; [discriminate H |]). contradiction.
        -- intros (_ & _ & [= <-] & H). congruence.
      * assert (Ht : In (Called (CMatchProperty p tree))
                        (trace_of (report_of decl tree'))
                     <-> p = prop decl /\ tree = tree').
        { destruct (reportable_dec (matchProperty forkedLexer (prop decl) tree'))
            as [[e He] | Hno].
          - rewrite (matchAndReport_reportable _ _ _ He). cbn. split.
            + intros [[= -> ->] | [H | [H | []]]]; try discriminate H. auto.
            + intros [-> ->]. now left.
          - rewrite (matchAndReport_silent _ _ Hno). cbn. split.
            + intros [[= -> ->] | []]. auto.
            + intros [-> ->]. now left. }
        split.
        -- cbn. intros H.
           repeat (destruct H as [H | H]; [discriminate H |]).
           apply Ht in H. destruct H as [-> ->]. auto.
        -- intros (-> & _ & [= <-] & _). cbn.
           do 7 right. apply Ht. auto.
    + split.
      * cbn. intros H.
        repeat (destruct H as [H | H]; [discriminate H |]). contradiction.
      * intros (_ & _ & H & _). discriminate H.
  - destruct (declCallback_not_eligible _ E) as [n ->]. split.
    + intros H. destruct (filterCalls_called _ _ _ H) as [c [[= <-] Hc]].
      now destruct (Hc p tree).
    + intros (_ & H & _). discriminate H.
Qed.

(** The walk visits the declarations one after the other. *)
Lemma walkDecls_cons (cb : Decl -> M unit) (decl : Decl) (rest : list Decl) :
  walkDecls (decl :: rest) cb
  = ((trace_of (cb decl) ++ trace_of (walkDecls rest cb))%list, Normal tt).
Proof.
  revert decl. induction rest as [| d rest IH]; intros decl.
  - simpl. unfold invoke, bind, ret. reflexivity.
  - change (walkDecls (decl :: d :: rest) cb)
      with (invoke (cb decl) ;; walkDecls (d :: rest) cb).
    rewrite IH. unfold invoke, bind. reflexivity.
Qed.

Lemma trace_walkDecls_app (cb : Decl -> M unit) (before after : list Decl) :
  trace_of (walkDecls (before ++ after) cb)
  = (trace_of (walkDecls before cb) ++ trace_of (walkDecls after cb))%list.
Proof.
  induction before as [| d before IH]; [reflexivity |].
  rewrite <- app_comm_cons, !walkDecls_cons. cbn.
  now rewrite IH, app_assoc.
Qed.

Lemma diagnostics_walkDecls (cb : Decl -> M unit) (root : list Decl) :
  diagnostics (trace_of (walkDecls root cb))
  = flat_map (fun decl => diagnostics (trace_of (cb decl))) root.
Proof.
  induction root as [| d root IH]; [reflexivity |].
  rewrite walkDecls_cons. cbn. now rewrite diagnostics_app, IH.
Qed.

Local Notation pipeline :=
  (normalPipeline ruleMessages matchesStringOrRegExp isStandardSyntaxDeclaration
                  isStandardSyntaxProperty isStandardSyntaxValue isCustomProperty
                  declarationValueIndex parse matchProperty
                  ignoreProperties forkedLexer).
Local Notation first_match :=
  (firstNameMatch matchesStringOrRegExp ignoreProperties).
Local Notation reaches_matching :=
  (reachesMatching ruleMessages matchesStringOrRegExp isStandardSyntaxDeclaration
                   isStandardSyntaxProperty isStandardSyntaxValue isCustomProperty
                   declarationValueIndex parse matchProperty
                   ignoreProperties forkedLexer).
Local Notation not_attempted :=
  (matchingNotAttempted ruleMessages matchesStringOrRegExp
                        isStandardSyntaxDeclaration isStandardSyntaxProperty
                        isStandardSyntaxValue isCustomProperty
                        declarationValueIndex parse matchProperty
                        ignoreProperties forkedLexer).

(* =============================================================== *)
(** ** The properties of the callback *)

(** C1.  When the value of a declaration parses and the grammar match
    on the tree is a reportable mismatch (a [SyntaxMatchError] with
    message [Mismatch]), every diagnostic of the declaration is the
    report whose start index is [declarationValueIndex(decl)] plus
    the mismatch offset, whose end index is the start index plus the
    mismatch length, and whose message is [messages.rejected] of the
    property and of [value.slice(offset, offset + length)]; a
    declaration that reaches matching has exactly this diagnostic.
    The message template quotes that substring, and for an offset and
    a length that are not negative the slice is
    [value[offset : offset + length]]. *)
Theorem mismatch_diagnostic_range_and_text
        (decl : Decl) (tree : CssNode) (e : MatchError) :
  parse decl.(value) = Some tree ->
  reportable (matchProperty forkedLexer decl.(prop) tree) e ->
  let base := declarationValueIndex decl in
  let startIndex := base + e.(mismatchOffset) in
  let endIndex := startIndex + e.(mismatchLength) in
  let mismatchValue :=
    Js.slice decl.(value) e.(mismatchOffset)
             (e.(mismatchOffset) + e.(mismatchLength)) in
  let expected :=
    Report (ruleMessages ruleName rejected decl.(prop) mismatchValue)
           decl startIndex endIndex ruleName in
  (forall d, In d (diagnostics (trace_of (callback decl))) -> d = expected)
  /\ (reaches_matching decl tree ->
      diagnostics (trace_of (callback decl)) = [expected])
  /\ (rejected decl.(prop) mismatchValue
      = "Unexpected unknown value " ++ dquote ++ mismatchValue ++ dquote
        ++ " for property " ++ dquote ++ decl.(prop) ++ dquote)
  /\ (0 <= e.(mismatchOffset) -> 0 <= e.(mismatchLength) ->
      mismatchValue
      = substring_at decl.(value) e.(mismatchOffset) e.(mismatchLength)).
Proof.
  intros Hparse Hrep base startIndex endIndex mismatchValue expected.
  assert (Hd : diagnostics (trace_of (report_of decl tree)) = [expected])
    by (rewrite (matchAndReport_reportable _ _ _ Hrep); reflexivity).
  repeat split.
  - intros d. rewrite diagnostics_declCallback, Hparse.
    destruct (is_eligible decl); [| intros []].
    destruct (containsUnsupportedMathFunction tree); [intros [] |].
    rewrite Hd. intros [<- | []]. reflexivity.
  - intros Hreach. apply reachesMatching_spec in Hreach.
    destruct Hreach as (_ & Hel & _ & Hmath).
    now rewrite diagnostics_declCallback, Hel, Hparse, Hmath.
  - intros Ho Hl. now apply slice_substring_at.
Qed.

(** C2.  A declaration that reaches grammar matching has a diagnostic
    if and only if the match result is an error whose name is
    [SyntaxMatchError] and whose raw message is [Mismatch]: on such
    an error the diagnostic is the report of the mismatch, and on
    any other outcome (no error, another name, another message) there
    is none. *)
Theorem diagnostic_iff_reportable (decl : Decl) (tree : CssNode) :
  reaches_matching decl tree ->
  let result := matchProperty forkedLexer decl.(prop) tree in
  (diagnostics (trace_of (callback decl)) <> [] <-> exists e, reportable result e)
  /\ (forall e, reportable result e ->
                diagnostics (trace_of (callback decl)) = [report_for decl e])
  /\ (result.(error) = None -> diagnostics (trace_of (callback decl)) = [])
  /\ (forall e, result.(error) = Some e ->
                e.(name) <> "SyntaxMatchError" \/ e.(rawMessage) <> "Mismatch" ->
                diagnostics (trace_of (callback decl)) = []).
Proof.
  intros Hreach result. apply reachesMatching_spec in Hreach.
  destruct Hreach as (_ & Hel & Hparse & Hmath).
  assert (Hd : diagnostics (trace_of (callback decl))
               = diagnostics (trace_of (report_of decl tree)))
    by now rewrite diagnostics_declCallback, Hel, Hparse, Hmath.
  rewrite Hd.
  assert (Hyes : forall e, reportable result e ->
                   diagnostics (trace_of (report_of decl tree))
                   = [report_for decl e])
    by (intros e He; now rewrite (matchAndReport_reportable _ _ _ He)).
  assert (Hno : (forall e, ~ reportable result e) ->
                diagnostics (trace_of (report_of decl tree)) = [])
    by (intros H; now rewrite (matchAndReport_silent _ _ H)).
  repeat split.
  - intros Hne. destruct (reportable_dec result) as [He | H]; [exact He |].
    now destruct (Hne (Hno H)).
  - intros [e He]. rewrite (Hyes e He). discriminate.
  - exact Hyes.
  - intros Herr. apply Hno. intros e [He _]. congruence.
  - intros e Herr Hother. apply Hno. intros e' (He' & Hn & Hm).
    assert (e' = e) by congruence. subst e'. tauto.
Qed.

(** C3.  [isPropIgnored] looks at the first entry of
    [ignoreProperties] whose name pattern matches the property: the
    declaration counts as ignored if and only if there is such an
    entry, its value pattern is truthy, and that pattern matches the
    value.  When the value pattern of the first matching entry is
    falsy the declaration is not ignored, whatever the entries after
    it are; and a declaration that gets to this check goes on to
    [parse] exactly when it is not ignored. *)
Theorem ignore_first_match_wins (propName propValue : string) :
  (ignored propName propValue = true
   <-> exists namePattern valuePattern,
         first_match propName namePattern valuePattern
         /\ Js.truthy valuePattern = true
         /\ matchesStringOrRegExp propValue valuePattern = true)
  /\ (forall namePattern valuePattern,
         first_match propName namePattern valuePattern ->
         Js.truthy valuePattern = false ->
         ignored propName propValue = false)
  /\ (forall decl,
         decl.(prop) = propName -> decl.(value) = propValue ->
         isMozInitial propValue = false ->
         isStandardSyntaxDeclaration decl = true ->
         isStandardSyntaxProperty propName = true ->
         isStandardSyntaxValue propValue = true ->
         isCustomProperty propName = false ->
         (ignored propName propValue = true ->
          callback decl = (filterCalls decl, Return))
         /\ (ignored propName propValue = false ->
             In (Called (CParse propValue)) (trace_of (callback decl)))).
Proof.
  set (p := fun entry : string * Js.Value =>
              matchesStringOrRegExp propName (Js.Str (fst entry))).
  assert (Hfirst : forall np vp, first_match propName np vp ->
                     array_find p ignoreProperties = Some (np, vp)).
  { intros np vp (before & after & -> & Hb & Hx).
    now apply array_find_first. }
  split; [split | split].
  - unfold isPropIgnored. fold p.
    destruct (array_find p ignoreProperties) as [[np vp] |] eqn:Hfind.
    + intros H. apply andb_true_iff in H. destruct H as [Ht Hm].
      exists np, vp. repeat split; try assumption.
      destruct (array_find_some _ _ _ Hfind) as (before & after & Hl & Hb & Hx).
      now exists before, after.
    + simpl. discriminate.
  - intros (np & vp & Hfm & Ht & Hm).
    unfold isPropIgnored. fold p. rewrite (Hfirst _ _ Hfm). simpl.
    now rewrite Ht, Hm.
  - intros np vp Hfm Ht.
    unfold isPropIgnored. fold p. rewrite (Hfirst _ _ Hfm). simpl.
    now rewrite Ht.
  - intros decl <- <- Hmoz Hdecl Hprop Hvalue Hcustom. split; intros Hign.
    + unfold declCallback. rewrite Hmoz. cbn -[matchAndReport].
      rewrite Hdecl. cbn -[matchAndReport]. rewrite Hprop. cbn -[matchAndReport].
      rewrite Hvalue. cbn -[matchAndReport]. rewrite Hcustom.
      cbn -[matchAndReport]. rewrite Hign. reflexivity.
    + assert (Hel : is_eligible decl = true) by (apply eligible_true; repeat split; assumption).
      rewrite (declCallback_eligible _ Hel).
      destruct (parse (value decl)) as [tree |];
        [destruct (containsUnsupportedMathFunction tree) |];
        cbn -[matchAndReport]; do 5 right; now left.
Qed.

(** C4.  When the parsed value tree of a declaration has, at any
    depth, a [Function] node named [clamp], [min] or [max], the
    declaration has no diagnostic, whatever else the value holds, and
    [matchProperty] is not called. *)
Theorem unsupported_math_no_diagnostic
        (decl : Decl) (tree node : CssNode) :
  parse decl.(value) = Some tree ->
  occurs_in node tree ->
  node_type node = "Function" ->
  In (node_name node) ["clamp"; "min"; "max"] ->
  diagnostics (trace_of (callback decl)) = [] /\ not_attempted decl.
Proof.
  intros Hparse Hocc Htype Hname.
  assert (Hmath : containsUnsupportedMathFunction tree = true)
    by (apply containsUnsupportedMathFunction_spec; now exists node).
  split.
  - rewrite diagnostics_declCallback, Hparse, Hmath.
    now destruct (is_eligible decl).
  - intros p tree' Hin. apply reachesMatching_spec in Hin.
    destruct Hin as (_ & _ & Hp & Hno). congruence.
Qed.

(** C5.  An eligible declaration whose value does not parse has
    exactly one diagnostic, the [parseError] warning on the
    declaration node, which carries no index and no end index;
    [matchProperty] is not called for it; and the walk goes on: in a
    run the warning stands between the diagnostics of the
    declarations before and those of the declarations after. *)
Theorem parse_failure_one_warning (decl : Decl) :
  is_eligible decl = true ->
  parse decl.(value) = None ->
  let warning := Warn (cannotParse decl.(value)) decl "parseError" in
  diagnostics (trace_of (callback decl)) = [warning]
  /\ diag_node warning = decl
  /\ diag_range warning = None
  /\ not_attempted decl
  /\ (forall before after,
         diagnostics (trace_of (walkDecls (before ++ decl :: after) callback))
         = (diagnostics (trace_of (walkDecls before callback))
            ++ warning :: diagnostics (trace_of (walkDecls after callback)))%list).
Proof.
  intros Hel Hparse warning.
  assert (Hd : diagnostics (trace_of (callback decl)) = [warning])
    by now rewrite diagnostics_declCallback, Hel, Hparse.
  repeat split.
  - exact Hd.
  - intros p tree Hin. apply reachesMatching_spec in Hin.
    destruct Hin as (_ & _ & Hp & _). congruence.
  - intros before after.
    rewrite trace_walkDecls_app, diagnostics_app, walkDecls_cons.
    cbn [trace_of fst]. now rewrite diagnostics_app, Hd.
Qed.

(** C7, as amended.  A diagnostic with a range is the report of a
    reportable mismatch: its start index is
    [declarationValueIndex(decl)] plus the mismatch offset and its
    end index is the start index plus the mismatch length.  So the
    end index is greater than the start index when the mismatch
    length is positive, and both are offsets that are not negative
    when the value index, the offset and the length are not. *)
Theorem report_range (decl : Decl) (d : Diagnostic) (startIndex endIndex : Z) :
  In d (diagnostics (trace_of (callback decl))) ->
  diag_range d = Some (startIndex, endIndex) ->
  exists tree e,
    parse decl.(value) = Some tree
    /\ reportable (matchProperty forkedLexer decl.(prop) tree) e
    /\ startIndex = declarationValueIndex decl + e.(mismatchOffset)
    /\ endIndex = startIndex + e.(mismatchLength)
    /\ (0 < e.(mismatchLength) -> startIndex < endIndex)
    /\ (0 <= declarationValueIndex decl -> 0 <= e.(mismatchOffset) ->
        0 <= e.(mismatchLength) ->
        0 <= startIndex /\ startIndex <= endIndex).
Proof.
  rewrite diagnostics_declCallback.
  destruct (is_eligible decl); [| intros []].
  destruct (parse (value decl)) as [tree |].
  - destruct (containsUnsupportedMathFunction tree); [intros [] |].
    destruct (reportable_dec (matchProperty forkedLexer (prop decl) tree))
      as [[e He] | Hno].
    + rewrite (matchAndReport_reportable _ _ _ He). cbn.
      intros [<- | []]. cbn. intros [= <- <-].
      exists tree, e.
      split; [reflexivity |]. split; [exact He |].
      split; [reflexivity |]. split; [reflexivity |]. split; lia.
    + rewrite (matchAndReport_silent _ _ Hno). intros [].
  - intros [<- | []]. discriminate.
Qed.

(** C9.  A declaration whose value is [-moz-initial] in any letter
    case leaves the callback at its first statement: nothing has been
    called (no standard-syntax check, no custom-property check, no
    ignore check, no parse, no match) and nothing is reported. *)
Theorem moz_initial_bypass (decl : Decl) :
  any_case_of "-moz-initial" decl.(value) ->
  callback decl = ([], Return)
  /\ diagnostics (trace_of (callback decl)) = []
  /\ calls (trace_of (callback decl)) = [].
Proof.
  intros Hcase.
  assert (Hmoz : isMozInitial (value decl) = true)
    by (apply test_anchored_literal_i_spec; [reflexivity | exact Hcase]).
  assert (H : callback decl = ([], Return))
    by (unfold declCallback; rewrite Hmoz; reflexivity).
  rewrite H. repeat split.
Qed.

(** C10.  The test for [-moz-initial] holds only of a value that is,
    as a whole, that token in some letter case.  A value that has the
    token with something before or after it fails the test and is not
    set aside: the callback goes on with the call of
    [isStandardSyntaxDeclaration] and does, to the end, what the
    pipeline of eligibility, parsing and matching does.  In
    particular such a value, when the declaration is eligible, gets
    the parse-failure warning if it does not parse and the mismatch
    report if the lexer answers with a reportable mismatch. *)
Theorem moz_initial_whole_value_only (decl : Decl) (token : string) :
  any_case_of "-moz-initial" token ->
  proper_substring token decl.(value) ->
  isMozInitial decl.(value) = false
  /\ (exists rest completion,
         callback decl
         = (Called (CIsStandardSyntaxDeclaration decl) :: rest, completion))
  /\ (forall v, isMozInitial v = true <-> any_case_of "-moz-initial" v)
  /\ callback decl = pipeline decl
  /\ (isStandardSyntaxDeclaration decl = true ->
      isStandardSyntaxProperty decl.(prop) = true ->
      isStandardSyntaxValue decl.(value) = true ->
      isCustomProperty decl.(prop) = false ->
      ignored decl.(prop) decl.(value) = false ->
      (parse decl.(value) = None ->
       callback decl
       = ((filterCalls decl
           ++ [ Called (CParse decl.(value));
                Emitted (Warn (cannotParse decl.(value)) decl "parseError") ])%list,
          Return))
      /\ (forall tree e,
             parse decl.(value) = Some tree ->
             containsUnsupportedMathFunction tree = false ->
             reportable (matchProperty forkedLexer decl.(prop) tree) e ->
             callback decl
             = ((filterCalls decl
                 ++ [ Called (CParse decl.(value));
                      Called (CContainsUnsupportedMathFunction tree);
                      Called (CMatchProperty decl.(prop) tree);
                      Called (CDeclarationValueIndex decl);
                      Emitted
                        (Report
                           (ruleMessages ruleName rejected decl.(prop)
                              (Js.slice decl.(value) e.(mismatchOffset)
                                        (e.(mismatchOffset) + e.(mismatchLength))))
                           decl
                           (declarationValueIndex decl + e.(mismatchOffset))
                           (declarationValueIndex decl + e.(mismatchOffset)
                            + e.(mismatchLength))
                           ruleName) ])%list,
                Normal tt))).
Proof.
  intros Htoken (before & after & Hvalue & Hproper).
  assert (Hspec : forall v, isMozInitial v = true <-> any_case_of "-moz-initial" v)
    by (intros v; now apply test_anchored_literal_i_spec).
  assert (Hmoz : isMozInitial (value decl) = false).
  { destruct (isMozInitial (value decl)) eqn:E; [| reflexivity].
    apply Hspec in E. apply length_any_case_of in E, Htoken.
    rewrite Hvalue, !length_append, Htoken in E.
    assert (String.length before <> 0 \/ String.length after <> 0)%nat
      by (destruct Hproper as [H | H]; [left | right];
          intros Hz; apply H; now destruct before, after).
    lia. }
  assert (Hpipe : callback decl = pipeline decl).
  { unfold declCallback, normalPipeline, matchAndReport, messages_rejected.
    rewrite Hmoz. cbv zeta.
    destruct (isStandardSyntaxDeclaration decl); [| reflexivity].
    destruct (isStandardSyntaxProperty (prop decl)); [| reflexivity].
    destruct (isStandardSyntaxValue (value decl)); [| reflexivity].
    destruct (isCustomProperty (prop decl)); [reflexivity |].
    destruct (ignored (prop decl) (value decl)); [reflexivity |].
    destruct (parse (value decl)) as [tree |]; [| reflexivity].
    destruct (containsUnsupportedMathFunction tree) eqn:Hmath.
    { cbn. now rewrite Hmath. }
    destruct (matchProperty forkedLexer (prop decl) tree) as [[e |]] eqn:Hresult.
    2: { cbn. now rewrite Hmath, Hresult. }
    cbn. rewrite Hmath, Hresult. cbn.
    destruct (String.eqb (name e) "SyntaxMatchError"); [| reflexivity].
    destruct (String.eqb (rawMessage e) "Mismatch"); reflexivity. }
  split; [exact Hmoz |]. split.
  { unfold declCallback. rewrite Hmoz. unfold return_if at 1.
    rewrite bind_ret, bind_call. eexists. eexists. reflexivity. }
  split; [exact Hspec |]. split; [exact Hpipe |].
  intros Hdecl Hprop Hvalue' Hcustom Hign.
  assert (Hel : is_eligible decl = true)
    by (apply eligible_true; repeat split; assumption).
  split.
  - intros Hparse. now rewrite (declCallback_eligible _ Hel), Hparse.
  - intros tree e Hparse Hmath Hrep.
    rewrite (declCallback_eligible _ Hel), Hparse, Hmath.
    now rewrite (matchAndReport_reportable _ _ _ Hrep).
Qed.

(* ================================================================= *)
(** ** More on the callback: what is called, and when *)

Local Notation has_math := hasUnsupportedMathNode.

(** Where a diagnostic of a declaration comes from. *)
Lemma diagnostics_cases (decl : Decl) (d : Diagnostic) :
  In d (diagnostics (trace_of (callback decl))) ->
  is_eligible decl = true
  /\ ((parse decl.(value) = None
       /\ d = Warn (cannotParse decl.(value)) decl "parseError")
      \/ (exists tree e,
             parse decl.(value) = Some tree
             /\ containsUnsupportedMathFunction tree = false
             /\ reportable (matchProperty forkedLexer decl.(prop) tree) e
             /\ d = report_for decl e)).
Proof.
  rewrite diagnostics_declCallback.
  destruct (is_eligible decl); [| intros []].
  destruct (parse (value decl)) as [tree |].
  - destruct (containsUnsupportedMathFunction tree) eqn:Hmath; [intros [] |].
    destruct (reportable_dec (matchProperty forkedLexer (prop decl) tree))
      as [[e He] | Hno].
    + rewrite (matchAndReport_reportable _ _ _ He). cbn. intros [<- | []].
      split; [reflexivity |]. right. exists tree, e. auto.
    + rewrite (matchAndReport_silent _ _ Hno). intros [].
  - intros [<- | []]. split; [reflexivity |]. left. auto.
Qed.

(** The trace of a declaration: some first calls of [fullCalls], then
    the diagnostics. *)
Lemma callback_trace_shape (decl : Decl) :
  exists n,
    trace_of (callback decl)
    = (map Called (firstn n (fullCalls decl (parse decl.(value))))
       ++ map Emitted (diagnostics (trace_of (callback decl))))%list.
Proof.
  destruct (is_eligible decl) eqn:E.
  - rewrite (declCallback_eligible _ E).
    destruct (parse (value decl)) as [tree |].
    + destruct (containsUnsupportedMathFunction tree).
      * now exists 7%nat.
      * destruct (reportable_dec (matchProperty forkedLexer (prop decl) tree))
          as [[e He] | Hno].
        -- rewrite (matchAndReport_reportable _ _ _ He). now exists 9%nat.
        -- rewrite (matchAndReport_silent _ _ Hno). now exists 8%nat.
    + now exists 6%nat.
  - destruct (declCallback_not_eligible _ E) as [n ->].
    destruct n as [| [| [| [| [| n]]]]];
      [exists 0%nat | exists 1%nat | exists 2%nat | exists 3%nat
       | exists 4%nat | exists 5%nat];
      try reflexivity.
    destruct n; reflexivity.
Qed.

(** X1.  A declaration that has a diagnostic got past every check of
    lines 75-85: its value is not [-moz-initial], the declaration, the
    property and the value are standard syntax, the property is not a
    custom property and the declaration is not ignored.  The
    diagnostic is attached to that declaration. *)
Theorem diagnostic_only_when_eligible (decl : Decl) (d : Diagnostic) :
  In d (diagnostics (trace_of (callback decl))) ->
  isMozInitial decl.(value) = false
  /\ isStandardSyntaxDeclaration decl = true
  /\ isStandardSyntaxProperty decl.(prop) = true
  /\ isStandardSyntaxValue decl.(value) = true
  /\ isCustomProperty decl.(prop) = false
  /\ ignored decl.(prop) decl.(value) = false
  /\ diag_node d = decl.
Proof.
  intros Hin. apply diagnostics_cases in Hin. destruct Hin as [Hel Hd].
  apply eligible_true in Hel.
  destruct Hel as (H1 & H2 & H3 & H4 & H5 & H6).
  repeat (split; [assumption |]).
  destruct Hd as [[_ ->] | (tree & e & _ & _ & _ & ->)]; reflexivity.
Qed.

(** X2.  [parse] is called on the value of the declaration, and only
    on it, exactly when the declaration got past every check of lines
    75-85. *)
Theorem parse_called_iff_eligible (decl : Decl) (v : string) :
  In (Called (CParse v)) (trace_of (callback decl))
  <-> v = decl.(value) /\ is_eligible decl = true.
Proof.
  destruct (is_eligible decl) eqn:E.
  - rewrite (declCallback_eligible _ E). split.
    + intros Hin.
      assert (Hv : In (Called (CParse v))
                      (filterCalls decl ++ [Called (CParse (value decl))])%list
                   -> v = value decl).
      { cbn. intros H.
        repeat (destruct H as [H | H]; [try discriminate H |]);
          [now injection H | contradiction]. }
      split; [| reflexivity].
      destruct (parse (value decl)) as [tree |].
      * destruct (containsUnsupportedMathFunction tree).
        -- cbn in Hin. apply Hv. cbn.
           repeat (destruct Hin as [Hin | Hin]; [try discriminate Hin |]);
             [do 5 right; now left | contradiction].
        -- destruct (reportable_dec (matchProperty forkedLexer (prop decl) tree))
             as [[e He] | Hno].
           ++ rewrite (matchAndReport_reportable _ _ _ He) in Hin. cbn in Hin.
              apply Hv. cbn.
              repeat (destruct Hin as [Hin | Hin]; [try discriminate Hin |]);
                [do 5 right; now left | contradiction].
           ++ rewrite (matchAndReport_silent _ _ Hno) in Hin. cbn in Hin.
              apply Hv. cbn.
              repeat (destruct Hin as [Hin | Hin]; [try discriminate Hin |]);
                [do 5 right; now left | contradiction].
      * cbn in Hin. apply Hv. cbn.
        repeat (destruct Hin as [Hin | Hin]; [try discriminate Hin |]);
          [do 5 right; now left | contradiction].
    + intros [-> _].
      destruct (parse (value decl)) as [tree |];
        [destruct (containsUnsupportedMathFunction tree) |];
        cbn -[matchAndReport]; do 5 right; now left.
  - destruct (declCallback_not_eligible _ E) as [n ->]. split.
    + intros Hin. apply In_firstn in Hin. cbn in Hin.
      repeat (destruct Hin as [Hin | Hin]; [discriminate Hin |]). contradiction.
    + intros [_ H]. discriminate H.
Qed.

(** X3.  The callback calls its collaborators in the order of the
    source and each at most once: the calls of a declaration are the
    first [n] of [fullCalls], for some [n], and they all come before
    the diagnostic, after which nothing is called. *)
Theorem calls_in_source_order (decl : Decl) :
  exists n,
    calls (trace_of (callback decl))
    = firstn n (fullCalls decl (parse decl.(value)))
    /\ trace_of (callback decl)
       = (map Called (calls (trace_of (callback decl)))
          ++ map Emitted (diagnostics (trace_of (callback decl))))%list.
Proof.
  destruct (callback_trace_shape decl) as [n Hn]. exists n.
  assert (Hc : calls (trace_of (callback decl))
               = firstn n (fullCalls decl (parse (value decl))))
    by (rewrite Hn at 1; apply calls_called_emitted).
  split; [exact Hc |]. rewrite Hc. exact Hn.
Qed.

(** X4.  [matchProperty] is called exactly when the declaration got
    past the checks of lines 75-85, its value parsed, and no
    [Function] node named [clamp], [min] or [max] (in this spelling)
    occurs in the tree; it is called on the property as it is written
    in the declaration and on the tree that [parse] gave. *)
Theorem matchProperty_called_iff (decl : Decl) (p : string) (tree : CssNode) :
  In (Called (CMatchProperty p tree)) (trace_of (callback decl))
  <-> p = decl.(prop)
      /\ is_eligible decl = true
      /\ parse decl.(value) = Some tree
      /\ ~ has_math tree.
Proof.
  rewrite reachesMatching_spec.
  assert (Hmath : containsUnsupportedMathFunction tree = false <-> ~ has_math tree).
  { unfold hasUnsupportedMathNode.
    rewrite <- containsUnsupportedMathFunction_spec.
    destruct (containsUnsupportedMathFunction tree); split;
      try discriminate; try reflexivity; intros H; now destruct H. }
  rewrite Hmath. reflexivity.
Qed.

(** X5.  The [parseError] warning is the only warning of the callback,
    and it is given exactly when the declaration got past the checks
    of lines 75-85 and [parse] threw. *)
Theorem warning_iff_parse_failure
        (decl : Decl) (text : string) (node : Decl) (stylelintType : string) :
  In (Warn text node stylelintType) (diagnostics (trace_of (callback decl)))
  <-> is_eligible decl = true
      /\ parse decl.(value) = None
      /\ text = cannotParse decl.(value)
      /\ node = decl
      /\ stylelintType = "parseError".
Proof.
  split.
  - intros Hin. apply diagnostics_cases in Hin.
    destruct Hin as [Hel [[Hp [= -> -> ->]] | (tree & e & _ & _ & _ & H)]];
      [auto | discriminate H].
  - intros (Hel & Hp & -> & -> & ->).
    rewrite diagnostics_declCallback, Hel, Hp. now left.
Qed.

(** X6.  The text quoted in a report is a part of the value: the value
    is something, then the quoted text, then something.  When the
    mismatch lies in the value (offset and length not negative, the
    end not past the end of the value), the part before has [offset]
    characters and the quoted text has [length]. *)
Theorem quoted_text_is_part_of_value
        (decl : Decl) (tree : CssNode) (e : MatchError) :
  reaches_matching decl tree ->
  reportable (matchProperty forkedLexer decl.(prop) tree) e ->
  exists before quoted after,
    decl.(value) = before ++ quoted ++ after
    /\ diagnostics (trace_of (callback decl))
       = [Report (ruleMessages ruleName rejected decl.(prop) quoted) decl
                 (declarationValueIndex decl + e.(mismatchOffset))
                 (declarationValueIndex decl + e.(mismatchOffset)
                  + e.(mismatchLength))
                 ruleName]
    /\ (0 <= e.(mismatchOffset) -> 0 <= e.(mismatchLength) ->
        e.(mismatchOffset) + e.(mismatchLength)
        <= Z.of_nat (String.length decl.(value)) ->
        Z.of_nat (String.length before) = e.(mismatchOffset)
        /\ Z.of_nat (String.length quoted) = e.(mismatchLength)).
Proof.
  intros Hreach Hrep. apply reachesMatching_spec in Hreach.
  destruct Hreach as (_ & Hel & Hparse & Hmath).
  assert (Hd : diagnostics (trace_of (callback decl)) = [report_for decl e]).
  { rewrite diagnostics_declCallback, Hel, Hparse, Hmath.
    now rewrite (matchAndReport_reportable _ _ _ Hrep). }
  set (quoted := Js.slice (value decl) (mismatchOffset e)
                          (mismatchOffset e + mismatchLength e)).
  destruct (Z_le_dec 0 (mismatchOffset e)) as [Ho |];
    [destruct (Z_le_dec 0 (mismatchLength e)) as [Hl |];
     [destruct (Z_le_dec (mismatchOffset e + mismatchLength e)
                         (Z.of_nat (String.length (value decl)))) as [Hin |] | ] | ].
  1: { destruct (slice_in_range (value decl) _ _ Ho Hl Hin)
         as (before & after & Hs & Hb & Hq).
       exists before, quoted, after. split; [exact Hs |]. split; [exact Hd |].
       intros _ _ _. split; assumption. }
  all: destruct (slice_infix (value decl) (mismatchOffset e)
                             (mismatchOffset e + mismatchLength e))
         as (before & after & Hs);
       exists before, quoted, after;
       (split; [exact Hs |]); (split; [exact Hd |]); intros; lia.
Qed.

(** X7.  A reportable mismatch of length 0 is reported all the same:
    the report has its end index equal to its start index and quotes
    the empty string. *)
Theorem zero_length_mismatch_is_reported
        (decl : Decl) (tree : CssNode) (e : MatchError) :
  reaches_matching decl tree ->
  reportable (matchProperty forkedLexer decl.(prop) tree) e ->
  e.(mismatchLength) = 0 ->
  diagnostics (trace_of (callback decl))
  = [Report (ruleMessages ruleName rejected decl.(prop) EmptyString) decl
            (declarationValueIndex decl + e.(mismatchOffset))
            (declarationValueIndex decl + e.(mismatchOffset))
            ruleName].
Proof.
  intros Hreach Hrep Hzero. apply reachesMatching_spec in Hreach.
  destruct Hreach as (_ & Hel & Hparse & Hmath).
  rewrite diagnostics_declCallback, Hel, Hparse, Hmath.
  rewrite (matchAndReport_reportable _ _ _ Hrep). cbn.
  unfold reportFor, messages_rejected.
  now rewrite Hzero, slice_empty_range, Z.add_0_r.
Qed.

End CallbackFacts.

(* =============================================================== *)
(** ** The properties of a run *)

Local Notation callback_of ip lexer :=
  (declCallback ruleMessages matchesStringOrRegExp isStandardSyntaxDeclaration
                isStandardSyntaxProperty isStandardSyntaxValue isCustomProperty
                declarationValueIndex parse matchProperty ip lexer).
Local Notation run :=
  (rule validateOptions ruleMessages matchesStringOrRegExp
        isStandardSyntaxDeclaration isStandardSyntaxProperty
        isStandardSyntaxValue isCustomProperty declarationValueIndex
        parse fork matchProperty).
Local Notation report_with := (reportFor ruleMessages declarationValueIndex).

(** The callback a run hands to [walkDecls]. *)
Local Notation callback_in secondaryOptions :=
  (callback_of (optionField opt_ignoreProperties secondaryOptions)
               (fork (optionField opt_propertiesSyntax secondaryOptions)
                     (optionField opt_typesSyntax secondaryOptions))).

Lemma rule_valid (primary : Js.Value) (secondaryOptions : option SecondaryOptions)
      (root : list Decl) :
  validateOptions primary secondaryOptions = true ->
  run primary secondaryOptions root
  = (Called (CValidateOptions primary secondaryOptions)
     :: Called (CFork (optionField opt_propertiesSyntax secondaryOptions)
                      (optionField opt_typesSyntax secondaryOptions))
     :: trace_of (walkDecls root (callback_in secondaryOptions)),
     Normal tt).
Proof.
  intros Hvalid. unfold rule. rewrite bind_call, Hvalid.
  cbn [negb return_if]. rewrite bind_ret, bind_call. cbn [trace_of fst snd].
  destruct root as [| d root]; [reflexivity |]. now rewrite walkDecls_cons.
Qed.

Lemma rule_invalid (primary : Js.Value) (secondaryOptions : option SecondaryOptions)
      (root : list Decl) :
  validateOptions primary secondaryOptions = false ->
  run primary secondaryOptions root
  = ([Called (CValidateOptions primary secondaryOptions)], Return).
Proof.
  intros Hinvalid. unfold rule. rewrite bind_call, Hinvalid. reflexivity.
Qed.

Lemma diagnostics_rule (primary : Js.Value)
      (secondaryOptions : option SecondaryOptions) (root : list Decl) :
  diagnostics (trace_of (run primary secondaryOptions root))
  = if validateOptions primary secondaryOptions then
      flat_map
        (fun decl => diagnostics (trace_of (callback_in secondaryOptions decl)))
        root
    else [].
Proof.
  destruct (validateOptions primary secondaryOptions) eqn:E.
  - rewrite (rule_valid _ _ _ E). cbn. apply diagnostics_walkDecls.
  - now rewrite (rule_invalid _ _ _ E).
Qed.

Lemma length_flat_map_le {A B} (f : A -> list B) (l : list A) :
  (forall x, length (f x) <= 1)%nat -> (length (flat_map f l) <= length l)%nat.
Proof.
  intros H. induction l as [| x l IH]; simpl; [lia |].
  rewrite length_app. specialize (H x). lia.
Qed.

(** C6.  Each declaration gives at most one diagnostic: none, or the
    one parse-failure warning, or the one mismatch report.  The
    diagnostics of a run are those of its declarations one after the
    other, so a run has at most as many as it has declarations. *)
Theorem at_most_one_diagnostic :
  (forall ignoreProperties forkedLexer decl,
      let ds := diagnostics (trace_of (callback_of ignoreProperties forkedLexer decl)) in
      (ds = []
       \/ ds = [Warn (cannotParse decl.(value)) decl "parseError"]
       \/ exists e, ds = [report_with decl e])
      /\ (length ds <= 1)%nat)
  /\ (forall primary secondaryOptions root,
         diagnostics (trace_of (run primary secondaryOptions root))
         = (if validateOptions primary secondaryOptions then
              flat_map
                (fun decl =>
                   diagnostics (trace_of (callback_in secondaryOptions decl)))
                root
            else [])
         /\ (length (diagnostics (trace_of (run primary secondaryOptions root)))
             <= length root)%nat).
Proof.
  assert (Hone : forall ignoreProperties forkedLexer decl,
             let ds := diagnostics
                         (trace_of (callback_of ignoreProperties forkedLexer decl)) in
             ds = []
             \/ ds = [Warn (cannotParse decl.(value)) decl "parseError"]
             \/ exists e, ds = [report_with decl e]).
  { intros ip lexer decl ds. subst ds. rewrite diagnostics_declCallback.
    destruct (eligible _ _ _ _ _ _ decl); [| now left].
    destruct (parse (value decl)) as [tree |]; [| right; now left].
    destruct (containsUnsupportedMathFunction tree); [now left |].
    destruct (reportable_dec (matchProperty lexer (prop decl) tree))
      as [[e He] | Hno].
    - rewrite (matchAndReport_reportable _ _ _ _ He).
      right. right. now exists e.
    - rewrite (matchAndReport_silent _ _ _ Hno). now left. }
  assert (Hlen : forall ignoreProperties forkedLexer decl,
             (length (diagnostics
                        (trace_of (callback_of ignoreProperties forkedLexer decl)))
              <= 1)%nat).
  { intros ip lexer decl.
    destruct (Hone ip lexer decl) as [-> | [-> | [e ->]]]; simpl; lia. }
  split.
  - intros ip lexer decl ds. split; [apply Hone | apply Hlen].
  - intros primary secondaryOptions root. split; [apply diagnostics_rule |].
    rewrite diagnostics_rule.
    destruct (validateOptions primary secondaryOptions); [| simpl; lia].
    apply length_flat_map_le. intros decl. apply Hlen.
Qed.

(** C8.  When [validateOptions] rejects the options, the run is the
    one call of [validateOptions] and the [return;] after it: the
    options are checked once, before anything else, no declaration
    is looked at and no diagnostic of a declaration is produced. *)
Theorem invalid_options_halt
        (primary : Js.Value) (secondaryOptions : option SecondaryOptions)
        (root : list Decl) :
  validateOptions primary secondaryOptions = false ->
  run primary secondaryOptions root
  = ([Called (CValidateOptions primary secondaryOptions)], Return)
  /\ diagnostics (trace_of (run primary secondaryOptions root)) = []
  /\ (forall c, In (Called c) (trace_of (run primary secondaryOptions root)) ->
                c = CValidateOptions primary secondaryOptions).
Proof.
  intros Hinvalid. rewrite (rule_invalid _ _ _ Hinvalid).
  repeat split. intros c [[= <-] | []]. reflexivity.
Qed.

(* ================================================================= *)
(** ** More on a run: what is done once, and how runs compose *)

Lemma calls_walkDecls (cb : Decl -> M unit) (root : list Decl) :
  calls (trace_of (walkDecls root cb))
  = flat_map (fun decl => calls (trace_of (cb decl))) root.
Proof.
  induction root as [| d root IH]; [reflexivity |].
  rewrite walkDecls_cons. cbn. now rewrite calls_app, IH.
Qed.

Lemma filter_flat_map_nil {A B} (p : B -> bool) (f : A -> list B) (l : list A) :
  (forall x, filter p (f x) = []) -> filter p (flat_map f l) = [].
Proof.
  intros H. induction l as [| x l IH]; simpl; [reflexivity |].
  now rewrite filter_app, H, IH.
Qed.

Lemma filter_none {A} (p : A -> bool) (l : list A) :
  (forall x, In x l -> p x = false) -> filter p l = [].
Proof.
  induction l as [| x l IH]; intros H; simpl; [reflexivity |].
  rewrite (H x (or_introl eq_refl)). apply IH. intros y Hy. apply H. now right.
Qed.

(** No call of a declaration is a call of [validateOptions] or of
    [fork]. *)
Lemma callback_calls_no_setup (ignoreProperties : list (string * Js.Value))
      (forkedLexer : Lexer) (decl : Decl) :
  filter isValidateOptionsCall
         (calls (trace_of (callback_of ignoreProperties forkedLexer decl))) = []
  /\ filter isForkCall
            (calls (trace_of (callback_of ignoreProperties forkedLexer decl))) = [].
Proof.
  destruct (callback_trace_shape ignoreProperties forkedLexer decl) as [n Hn].
  rewrite Hn, calls_called_emitted.
  split; apply filter_none; intros c Hc; apply In_firstn in Hc;
    unfold fullCalls in Hc; apply in_app_or in Hc;
    (destruct Hc as [Hc | Hc];
     [ simpl in Hc;
       repeat (destruct Hc as [<- | Hc]; [reflexivity |]); contradiction
     | destruct (parse (value decl)); simpl in Hc;
       repeat (destruct Hc as [<- | Hc]; [reflexivity |]); contradiction ]).
Qed.

(** X8.  In a run [validateOptions] is called exactly once.  [fork] is
    called exactly once when the options are valid and not at all when
    they are not: the lexer is built once for the run, from the two
    syntax tables of the options (empty when absent), after the
    validation and before the first declaration is looked at, and
    never again while the declarations are walked. *)
Theorem validation_and_fork_once
        (primary : Js.Value) (secondaryOptions : option SecondaryOptions)
        (root : list Decl) :
  let cs := calls (trace_of (run primary secondaryOptions root)) in
  length (filter isValidateOptionsCall cs) = 1%nat
  /\ length (filter isForkCall cs)
     = (if validateOptions primary secondaryOptions then 1%nat else 0%nat)
  /\ (validateOptions primary secondaryOptions = true ->
      cs = CValidateOptions primary secondaryOptions
           :: CFork (optionField opt_propertiesSyntax secondaryOptions)
                    (optionField opt_typesSyntax secondaryOptions)
           :: flat_map
                (fun decl => calls (trace_of (callback_in secondaryOptions decl)))
                root).
Proof.
  intros cs. subst cs.
  destruct (validateOptions primary secondaryOptions) eqn:E.
  - rewrite (rule_valid _ _ _ E). cbn [trace_of fst calls].
    rewrite calls_walkDecls. cbn [filter isValidateOptionsCall isForkCall length].
    rewrite !filter_flat_map_nil
      by (intros decl; apply callback_calls_no_setup).
    repeat split.
  - rewrite (rule_invalid _ _ _ E). repeat split. discriminate.
Qed.


(** X10.  How the entries of [ignoreProperties] count.  With no entry
    nothing is ignored.  Entries whose key does not match the property
    are passed over.  The first entry whose key matches decides alone:
    the entries after it are never looked at. *)
Theorem ignore_entries_in_order (propName propValue : string) :
  isPropIgnored matchesStringOrRegExp [] propName propValue = false
  /\ (forall skipped rest,
         Forall (fun entry => matchesStringOrRegExp propName (Js.Str (fst entry)) = false)
                skipped ->
         isPropIgnored matchesStringOrRegExp (skipped ++ rest) propName propValue
         = isPropIgnored matchesStringOrRegExp rest propName propValue)
  /\ (forall namePattern valuePattern rest,
         matchesStringOrRegExp propName (Js.Str namePattern) = true ->
         isPropIgnored matchesStringOrRegExp ((namePattern, valuePattern) :: rest)
                       propName propValue
         = Js.truthy valuePattern && matchesStringOrRegExp propValue valuePattern).
Proof.
  split; [reflexivity |]. split.
  - intros skipped rest Hskipped. unfold isPropIgnored.
    induction Hskipped as [| entry skipped Hentry _ IH]; [reflexivity |].
    simpl. rewrite Hentry. exact IH.
  - intros np vp rest Hmatch. unfold isPropIgnored. simpl.
    now rewrite Hmatch.
Qed.

End RuleFacts.

(* ================================================================= *)
(** ** The rule on concrete declarations *)

(** [color: redd]: the report brackets [redd] in the declaration. *)
Example run_color_redd :
  diagnostics (trace_of (Stub.declCallback [] Stub.color_redd))
  = [Report (rejected "color" "redd" ++ " (" ++ ruleName ++ ")")
            Stub.color_redd 7 11 ruleName].
Proof. reflexivity. Qed.

Example slice_color_redd :
  Js.slice ("color" ++ ": " ++ "redd") 7 11 = "redd".
Proof. reflexivity. Qed.

(** [margin: 10px 10px 10xp] with a mismatch at offset 10, length 4. *)
Example slice_margin : Js.slice "10px 10px 10xp" 10 (10 + 4) = "10xp".
Proof. reflexivity. Qed.

(** A first entry with an empty value pattern hides a later entry
    that matches both the name and the value. *)
Example falsy_value_pattern_hides_later_entry :
  isPropIgnored Stub.matchesStringOrRegExp
                [("color", Js.Str EmptyString); ("color", Js.Str "redd")]
                "color" "redd" = false
  /\ isPropIgnored Stub.matchesStringOrRegExp
                   [("color", Js.Str "redd")] "color" "redd" = true.
Proof. split; reflexivity. Qed.

(** A run over three declarations: one report, one warning, none. *)
Example run_three :
  diagnostics
    (trace_of (Stub.rule (Js.Bool true) None
                         [Stub.color_redd; Stub.color_paren; Stub.color_red]))
  = [ Report (rejected "color" "redd" ++ " (" ++ ruleName ++ ")")
             Stub.color_redd 7 11 ruleName;
      Warn (cannotParse "(") Stub.color_paren "parseError" ].
Proof. reflexivity. Qed.

Lemma mismatch_diagnostic_witness :
  diagnostics (trace_of (Stub.declCallback [] Stub.color_redd))
  = [Report (Stub.ruleMessages ruleName rejected "color" "redd")
            Stub.color_redd 7 11 ruleName].
Proof.
  refine (proj1 (proj2
    (mismatch_diagnostic_range_and_text
       Stub.ruleMessages Stub.matchesStringOrRegExp Stub.always Stub.standard
       Stub.standard Stub.isCustomProperty Stub.declarationValueIndex Stub.parse
       unit Stub.matchProperty [] tt Stub.color_redd Stub.redd_tree Stub.redd_error
       _ _)) _).
  - reflexivity.
  - repeat split.
  - unfold reachesMatching. simpl. tauto.
Defined.

Lemma diagnostic_iff_reportable_witness :
  diagnostics (trace_of (Stub.declCallback [] Stub.color_redd)) <> []
  <-> exists e, reportable (Stub.matchProperty tt "color" Stub.redd_tree) e.
Proof.
  refine (proj1
    (diagnostic_iff_reportable
       Stub.ruleMessages Stub.matchesStringOrRegExp Stub.always Stub.standard
       Stub.standard Stub.isCustomProperty Stub.declarationValueIndex Stub.parse
       unit Stub.matchProperty [] tt Stub.color_redd Stub.redd_tree _)).
  unfold reachesMatching. simpl. tauto.
Defined.

Lemma unsupported_math_witness :
  diagnostics (trace_of (Stub.declCallback [] Stub.color_min)) = []
  /\ matchingNotAttempted
       Stub.ruleMessages Stub.matchesStringOrRegExp Stub.always Stub.standard
       Stub.standard Stub.isCustomProperty Stub.declarationValueIndex Stub.parse
       Stub.matchProperty [] tt Stub.color_min.
Proof.
  apply (unsupported_math_no_diagnostic
           Stub.ruleMessages Stub.matchesStringOrRegExp Stub.always Stub.standard
           Stub.standard Stub.isCustomProperty Stub.declarationValueIndex
           Stub.parse unit Stub.matchProperty [] tt
           Stub.color_min Stub.calc_tree Stub.min_call).
  - reflexivity.
  - apply occurs_below with (c := Stub.calc_call); [simpl; tauto |].
    apply occurs_below with (c := Stub.min_call); [simpl; tauto |].
    apply occurs_here.
  - reflexivity.
  - simpl. tauto.
Defined.

Lemma parse_failure_witness :
  diagnostics (trace_of (Stub.declCallback [] Stub.color_paren))
  = [Warn (cannotParse "(") Stub.color_paren "parseError"].
Proof.
  refine (proj1
    (parse_failure_one_warning
       Stub.ruleMessages Stub.matchesStringOrRegExp Stub.always Stub.standard
       Stub.standard Stub.isCustomProperty Stub.declarationValueIndex Stub.parse
       unit Stub.matchProperty [] tt Stub.color_paren _ _)); reflexivity.
Defined.

Lemma report_range_witness :
  exists tree e,
    Stub.parse "redd" = Some tree
    /\ reportable (Stub.matchProperty tt "color" tree) e
    /\ 7 = Stub.declarationValueIndex Stub.color_redd + e.(mismatchOffset)
    /\ 11 = 7 + e.(mismatchLength)
    /\ (0 < e.(mismatchLength) -> 7 < 11)
    /\ (0 <= Stub.declarationValueIndex Stub.color_redd ->
        0 <= e.(mismatchOffset) -> 0 <= e.(mismatchLength) ->
        0 <= 7 /\ 7 <= 11).
Proof.
  apply (report_range
           Stub.ruleMessages Stub.matchesStringOrRegExp Stub.always Stub.standard
           Stub.standard Stub.isCustomProperty Stub.declarationValueIndex
           Stub.parse unit Stub.matchProperty [] tt Stub.color_redd
           (Report (Stub.ruleMessages ruleName rejected "color" "redd")
                   Stub.color_redd 7 11 ruleName)).
  - simpl. left. reflexivity.
  - reflexivity.
Defined.

(** C7, as stated, fails: when the lexer reports a mismatch of length
    0 (the value ends where the grammar wants more), the report for
    [font: 12px] has the range 6 to 6. *)
Lemma zero_length_mismatch_range :
  diagnostics (trace_of (Stub.declCallback [] Stub.font_12px))
  = [Report (Stub.ruleMessages ruleName rejected "font" EmptyString)
            Stub.font_12px 6 6 ruleName]
  /\ ~ rangesNonEmpty (Stub.declCallback []) Stub.font_12px.
Proof.
  split; [reflexivity |].
  intros H.
  destruct (H (Report (Stub.ruleMessages ruleName rejected "font" EmptyString)
                      Stub.font_12px 6 6 ruleName) 6 6) as [Hlt _].
  - simpl. left. reflexivity.
  - reflexivity.
  - lia.
Qed.

Lemma invalid_options_witness :
  Stub.rule (Js.Bool false) None [Stub.color_redd; Stub.color_paren]
  = ([Called (CValidateOptions (Js.Bool false) None)], Return).
Proof.
  refine (proj1
    (invalid_options_halt
       Stub.validateOptions Stub.ruleMessages Stub.matchesStringOrRegExp
       Stub.always Stub.standard Stub.standard Stub.isCustomProperty
       Stub.declarationValueIndex Stub.parse unit Stub.fork Stub.matchProperty
       (Js.Bool false) None [Stub.color_redd; Stub.color_paren] _)).
  reflexivity.
Defined.

Lemma moz_initial_witness :
  Stub.declCallback [] Stub.display_moz = ([], Return).
Proof.
  refine (proj1
    (moz_initial_bypass
       Stub.ruleMessages Stub.matchesStringOrRegExp Stub.always Stub.standard
       Stub.standard Stub.isCustomProperty Stub.declarationValueIndex Stub.parse
       unit Stub.matchProperty [] tt Stub.display_moz _)).
  apply test_anchored_literal_i_spec; reflexivity.
Defined.

Lemma moz_initial_substring_witness :
  isMozInitial "-moz-initial !x" = false
  /\ Stub.declCallback [] Stub.color_moz_more
     = ((filterCalls Stub.color_moz_more
         ++ [ Called (CParse "-moz-initial !x");
              Called (CContainsUnsupportedMathFunction
                        (mkCssNode "Value" EmptyString
                           [mkCssNode "Identifier" "-moz-initial !x" []]));
              Called (CMatchProperty "color"
                        (mkCssNode "Value" EmptyString
                           [mkCssNode "Identifier" "-moz-initial !x" []]));
              Called (CDeclarationValueIndex Stub.color_moz_more);
              Emitted
                (Report
                   (Stub.ruleMessages ruleName rejected "color" "-moz-initial !x")
                   Stub.color_moz_more 7 22 ruleName) ])%list,
        Normal tt).
Proof.
  destruct (moz_initial_whole_value_only
              Stub.ruleMessages Stub.matchesStringOrRegExp Stub.always
              Stub.standard Stub.standard Stub.isCustomProperty
              Stub.declarationValueIndex Stub.parse unit Stub.matchProperty [] tt
              Stub.color_moz_more "-moz-initial")
    as (Hno & _ & _ & _ & Hrun).
  - apply test_anchored_literal_i_spec; reflexivity.
  - exists EmptyString, " !x". split; [reflexivity | right; discriminate].
  - split; [exact Hno |].
    exact (proj2 (Hrun eq_refl eq_refl eq_refl eq_refl eq_refl)
             (mkCssNode "Value" EmptyString
                [mkCssNode "Identifier" "-moz-initial !x" []])
             (mkMatchError 15 0 "SyntaxMatchError" "Mismatch")
             eq_refl eq_refl (conj eq_refl (conj eq_refl eq_refl))).
Defined.


Lemma diagnostic_only_when_eligible_witness :
  Stub.isCustomProperty "color" = false
  /\ diag_node (Report (Stub.ruleMessages ruleName rejected "color" "redd")
                       Stub.color_redd 7 11 ruleName)
     = Stub.color_redd.
Proof.
  destruct (diagnostic_only_when_eligible
              Stub.ruleMessages Stub.matchesStringOrRegExp Stub.always
              Stub.standard Stub.standard Stub.isCustomProperty
              Stub.declarationValueIndex Stub.parse unit Stub.matchProperty [] tt
              Stub.color_redd
              (Report (Stub.ruleMessages ruleName rejected "color" "redd")
                      Stub.color_redd 7 11 ruleName))
    as (_ & _ & _ & _ & Hcustom & _ & Hnode).
  - simpl. left. reflexivity.
  - split; [exact Hcustom | exact Hnode].
Defined.

Lemma quoted_text_witness :
  exists before quoted after,
    "redd" = before ++ quoted ++ after
    /\ diagnostics (trace_of (Stub.declCallback [] Stub.color_redd))
       = [Report (Stub.ruleMessages ruleName rejected "color" quoted)
                 Stub.color_redd (7 + 0) (7 + 0 + 4) ruleName]
    /\ (0 <= 0 -> 0 <= 4 -> 0 + 4 <= 4 ->
        Z.of_nat (String.length before) = 0
        /\ Z.of_nat (String.length quoted) = 4).
Proof.
  apply (quoted_text_is_part_of_value
           Stub.ruleMessages Stub.matchesStringOrRegExp Stub.always Stub.standard
           Stub.standard Stub.isCustomProperty Stub.declarationValueIndex
           Stub.parse unit Stub.matchProperty [] tt
           Stub.color_redd Stub.redd_tree Stub.redd_error).
  - unfold reachesMatching. simpl. tauto.
  - repeat split.
Defined.

Lemma zero_length_mismatch_witness :
  diagnostics (trace_of (Stub.declCallback [] Stub.font_12px))
  = [Report (Stub.ruleMessages ruleName rejected "font" EmptyString)
            Stub.font_12px (6 + 0) (6 + 0) ruleName].
Proof.
  apply (zero_length_mismatch_is_reported
           Stub.ruleMessages Stub.matchesStringOrRegExp Stub.always Stub.standard
           Stub.standard Stub.isCustomProperty Stub.declarationValueIndex
           Stub.parse unit Stub.matchProperty [] tt
           Stub.font_12px
           (mkCssNode "Value" EmptyString [mkCssNode "Identifier" "12px" []])
           (mkMatchError 0 0 "SyntaxMatchError" "Mismatch")).
  - unfold reachesMatching. simpl. tauto.
  - repeat split.
  - reflexivity.
Defined.
